(** * Character Pose Editor: a shallow embedding of [src/App.tsx]

    The functions of the source file that carry its logic:
    - [generatePrompt], the prompt composer of [App];
    - [dataUrlToInfo], the data-URL splitter;
    - [handleInteractionMove], the move handler of [DraggablePad];
    - [handleReset] and [generateImage] of [App], with the event loop of the
      page as a step function over the component state.

    JavaScript numbers are modelled twice.  The modules [Composer], [Pad]
    and [App] take them as real numbers ([R]) with exact arithmetic, which
    is what the general statements are proved on; rounding, NaN and
    infinities are outside of that model, and the numeric statements about
    the pads and the intensity thresholds are stated with a tolerance, so
    that they say nothing that rounding could decide.  The module [Double]
    takes them as they are, IEEE 754 binary64 numbers, and evaluates the same
    code at given inputs, rounding included.
    JavaScript strings are modelled as [string] (8-bit characters). *)

From Stdlib Require Import Reals Lra Lia List String Ascii Bool Arith.
From Stdlib Require Import QArith Qreals.
From Stdlib Require Floats.
Import ListNotations.

Local Open Scope string_scope.
Local Open Scope R_scope.

(** ** JavaScript helpers *)

Module Js.

(** Comparison of numbers, as a boolean. *)
Definition ltb (a b : R) : bool := if Rlt_dec a b then true else false.
Definition gtb (a b : R) : bool := ltb b a.

(** [Boolean(s)] on a string: the empty string is the only falsy one. *)
Definition Boolean (s : string) : bool :=
  match s with EmptyString => false | String _ _ => true end.

(** [Boolean(v)] on a value that is a string, [null] or [undefined]. *)
Definition truthy (v : option string) : bool :=
  match v with Some s => Boolean s | None => false end.

(** [a || b] on strings that may be [undefined]. *)
Definition or_else (v : option string) (d : string) : string :=
  match v with
  | Some s => if Boolean s then s else d
  | None => d
  end.

(** [parts.join(sep)]. *)
Definition join (sep : string) (parts : list string) : string :=
  String.concat sep parts.

(** [parts.push(s)], as a new list. *)
Definition push (parts : list string) (s : string) : list string :=
  parts ++ [s].

(** The result of running a function: it returns or it throws. *)
Inductive outcome (A : Type) : Type :=
| Returns (a : A)
| Throws (message : option string).
Arguments Returns {A} a.
Arguments Throws {A} message.

End Js.

Infix "<?" := Js.ltb (at level 70, no associativity) : R_scope.
Infix ">?" := Js.gtb (at level 70, no associativity) : R_scope.

(** [type Point = { x: number; y: number }] *)
Record Point : Type := mkPoint { x : R; y : R }.

(** ** The prompt composer *)

Module Composer.

Definition fallback : string :=
  "Make a high-quality, photorealistic image of the subject, keeping the style the same.".

(** [generatePrompt] reads the three offsets of the component state. *)
Definition generatePrompt (gazeOffset headOffset bodyOffset : Point) : string :=
  let promptParts : list string := [] in
  let threshold := 15 in

  let headDistance := sqrt (x headOffset ^ 2 + y headOffset ^ 2) in
  let promptParts :=
    if headDistance >? threshold then
      let vertical :=
        if y headOffset <? - threshold then "up"
        else if y headOffset >? threshold then "down" else "" in
      let horizontal :=
        if x headOffset <? - threshold then "left"
        else if x headOffset >? threshold then "right" else "" in
      let headDirection :=
        Js.join " and to the " (filter Js.Boolean [vertical; horizontal]) in
      let padRadius := 64 in
      let tiltAmount :=
        if headDistance >? padRadius * 0.75 then "significantly "
        else if headDistance <? padRadius * 0.4 then "slightly "
        else "" in
      if Js.Boolean headDirection then
        Js.push promptParts
          ("Tilt the main subject's head " ++ tiltAmount ++ headDirection ++ ".")
      else promptParts
    else promptParts in

  let bodyDistance := sqrt (x bodyOffset ^ 2 + y bodyOffset ^ 2) in
  let promptParts :=
    if bodyDistance >? threshold then
      let vertical :=
        if y bodyOffset <? - threshold then "up"
        else if y bodyOffset >? threshold then "down" else "" in
      let horizontal :=
        if x bodyOffset <? - threshold then "left"
        else if x bodyOffset >? threshold then "right" else "" in
      let bodyDirection :=
        Js.join " and to the " (filter Js.Boolean [vertical; horizontal]) in
      let padRadius := 80 in
      let turnAmount :=
        if bodyDistance >? padRadius * 0.75 then "significantly "
        else if bodyDistance <? padRadius * 0.4 then "slightly "
        else "" in
      if Js.Boolean bodyDirection then
        Js.push promptParts
          ("Turn the main subject's body " ++ turnAmount ++ "to face "
             ++ bodyDirection ++ ".")
      else promptParts
    else promptParts in

  let gazeDistance := sqrt (x gazeOffset ^ 2 + y gazeOffset ^ 2) in
  let promptParts :=
    if gazeDistance >? threshold then
      let vertical :=
        if y gazeOffset <? - threshold then "up"
        else if y gazeOffset >? threshold then "down" else "" in
      let horizontal :=
        if x gazeOffset <? - threshold then "left"
        else if x gazeOffset >? threshold then "right" else "" in
      let gazeDirection :=
        Js.join " and to the " (filter Js.Boolean [vertical; horizontal]) in
      if Js.Boolean gazeDirection then
        Js.push promptParts ("Make the subject look " ++ gazeDirection ++ ".")
      else promptParts
    else promptParts in

  if (List.length promptParts =? 0)%nat then fallback
  else Js.join " " promptParts.

End Composer.

(** Views of [generatePrompt] used to state properties of one axis: the
    distance of an offset, its direction label, the intensity qualifier and
    the phrase pushed for the axis, if any.  [generatePrompt_phrases] below
    relates them to the function itself. *)

Module Axis.

Definition threshold : R := 15.

Definition distance (p : Point) : R := sqrt (x p ^ 2 + y p ^ 2).

Definition vertical (p : Point) : string :=
  if y p <? - threshold then "up"
  else if y p >? threshold then "down" else "".

Definition horizontal (p : Point) : string :=
  if x p <? - threshold then "left"
  else if x p >? threshold then "right" else "".

Definition direction (p : Point) : string :=
  Js.join " and to the " (filter Js.Boolean [vertical p; horizontal p]).

Definition qualifier (padRadius : R) (p : Point) : string :=
  if distance p >? padRadius * 0.75 then "significantly "
  else if distance p <? padRadius * 0.4 then "slightly "
  else "".

Definition headRadius : R := 64.
Definition bodyRadius : R := 80.

Definition headTemplate (amount dir : string) : string :=
  "Tilt the main subject's head " ++ amount ++ dir ++ ".".
Definition bodyTemplate (amount dir : string) : string :=
  "Turn the main subject's body " ++ amount ++ "to face " ++ dir ++ ".".
Definition gazeTemplate (dir : string) : string :=
  "Make the subject look " ++ dir ++ ".".

Definition headPhrase (p : Point) : option string :=
  if distance p >? threshold then
    if Js.Boolean (direction p)
    then Some (headTemplate (qualifier headRadius p) (direction p))
    else None
  else None.

Definition bodyPhrase (p : Point) : option string :=
  if distance p >? threshold then
    if Js.Boolean (direction p)
    then Some (bodyTemplate (qualifier bodyRadius p) (direction p))
    else None
  else None.

Definition gazePhrase (p : Point) : option string :=
  if distance p >? threshold then
    if Js.Boolean (direction p)
    then Some (gazeTemplate (direction p))
    else None
  else None.

Definition toList (o : option string) : list string :=
  match o with Some s => [s] | None => [] end.

Definition phrases (gazeOffset headOffset bodyOffset : Point) : list string :=
  toList (headPhrase headOffset) ++ toList (bodyPhrase bodyOffset)
    ++ toList (gazePhrase gazeOffset).

(** A component of the offset is past the threshold: one of the two
    direction labels is not empty. *)
Definition labelled (p : Point) : Prop :=
  y p < - threshold \/ threshold < y p \/ x p < - threshold \/ threshold < x p.


(** The prompt made of the phrases that were pushed. *)
Definition render (parts : list string) : string :=
  match parts with
  | [] => Composer.fallback
  | _ :: _ => Js.join " " parts
  end.

End Axis.

(** ** The data-URL splitter *)

Module Transfer.

Local Open Scope char_scope.

(** [s.split(sep)] for a one-character separator: never an empty array. *)
Fixpoint split (sep : ascii) (s : string) : list string :=
  match s with
  | EmptyString => [EmptyString]
  | String c r =>
      if Ascii.eqb c sep then EmptyString :: split sep r
      else match split sep r with
           | h :: t => String c h :: t
           | [] => [String c EmptyString]
           end
  end.

(** Line terminators, which [.] of a regular expression does not match
    (of the four, the two that are 8-bit characters). *)
Definition isLineTerminator (c : ascii) : bool :=
  Ascii.eqb c "010" || Ascii.eqb c "013".

(** [(.*?);] anchored at the start of [s]: the shortest run of characters
    other than line terminators that is followed by [;]. *)
Fixpoint lazyUntilSemicolon (s : string) : option string :=
  match s with
  | EmptyString => None
  | String c r =>
      if Ascii.eqb c ";" then Some EmptyString
      else if isLineTerminator c then None
      else option_map (String c) (lazyUntilSemicolon r)
  end.

(** [s.match(/:(.*?);/)?.[1]]: capture group 1 of the leftmost match, or
    [undefined] when there is no match. *)
Fixpoint matchGroup1 (s : string) : option string :=
  match s with
  | EmptyString => None
  | String c r =>
      if Ascii.eqb c ":" then
        match lazyUntilSemicolon r with
        | Some m => Some m
        | None => matchGroup1 r
        end
      else matchGroup1 r
  end.

(** The character [c] occurs in [s]. *)
Fixpoint occurs (c : ascii) (s : string) : bool :=
  match s with
  | EmptyString => false
  | String c' r => Ascii.eqb c' c || occurs c r
  end.

(** A media type that a data URL can carry: not empty, and free of the
    characters that delimit it in the URL ([;] and [,]) and of line
    terminators. *)
Definition mediaTypeOk (mediaType : string) : Prop :=
  mediaType <> EmptyString
  /\ occurs "," mediaType = false /\ occurs ";" mediaType = false
  /\ occurs "010" mediaType = false /\ occurs "013" mediaType = false.

(** A base64 payload: free of the separator [,]. *)
Definition payloadOk (bytes : string) : Prop := occurs "," bytes = false.

Local Close Scope char_scope.

(** [{ base64Data: string; mimeType: string }]; [base64Data] is
    [undefined] when the array has no second element. *)
Record Info : Type := mkInfo { base64Data : option string; mimeType : string }.

Definition dataUrlToInfo (dataUrl : string) : Js.outcome Info :=
  let parts := split "," dataUrl in
  match nth_error parts 0 with
  | None => Js.Throws (Some "TypeError")
  | Some part0 =>
      let mimeType := Js.or_else (matchGroup1 part0) "application/octet-stream" in
      let base64Data := nth_error parts 1 in
      Js.Returns (mkInfo base64Data mimeType)
  end.

(** The template literal of [generateImage] that builds a data URL:
    [`data:${mimeType};base64,${data}`]. *)
Definition dataUrl (mimeType data : string) : string :=
  "data:" ++ mimeType ++ ";base64," ++ data.

End Transfer.

(** ** The pad controller *)

Module Pad.

(** The part of [getBoundingClientRect()] that the handler reads. *)
Record DOMRect : Type :=
  mkRect { left : R; top : R; width : R; height : R }.

Record Touch : Type := mkTouch { touchX : R; touchY : R }.

(** [MouseEvent | TouchEvent]; a touch event carries at least one touch. *)
Inductive MoveEvent : Type :=
| MouseEvent (clientX clientY : R)
| TouchEvent (touch0 : Touch) (others : list Touch).

(** The argument of the [setOffset] call, or [None] when the handler
    returns without calling it.  [padRef] is the rectangle of the pad
    element, [None] when [padRef.current] is null. *)
Definition handleInteractionMove
    (isDragging : bool) (padRef : option DOMRect) (e : MoveEvent)
  : option Point :=
  match isDragging, padRef with
  | true, Some rect =>
      let clientX :=
        match e with TouchEvent t _ => touchX t | MouseEvent cx _ => cx end in
      let clientY :=
        match e with TouchEvent t _ => touchY t | MouseEvent _ cy => cy end in
      let centerX := left rect + width rect / 2 in
      let centerY := top rect + height rect / 2 in
      let dx := clientX - centerX in
      let dy := clientY - centerY in
      let radius := width rect / 2 in
      let distance := sqrt (dx * dx + dy * dy) in
      if distance >? radius then
        Some (mkPoint ((dx / distance) * radius) ((dy / distance) * radius))
      else
        Some (mkPoint dx dy)
  | _, _ => None
  end.

(** The Euclidean norm of an offset. *)
Definition magnitude (p : Point) : R := sqrt (x p * x p + y p * y p).

(** The radius of the pad: half of its outer width. *)
Definition radius (rect : DOMRect) : R := width rect / 2.

(** The position of the pointer of an event. *)
Definition pointer (e : MoveEvent) : R * R :=
  match e with
  | MouseEvent cx cy => (cx, cy)
  | TouchEvent t _ => (touchX t, touchY t)
  end.

(** The vector from the centre of the pad to the pointer. *)
Definition raw (rect : DOMRect) (e : MoveEvent) : Point :=
  mkPoint (fst (pointer e) - (left rect + width rect / 2))
          (snd (pointer e) - (top rect + height rect / 2)).

(** What a call of the handler on a pad with rectangle [rect] does: it
    writes nothing when the pad is not dragged, and otherwise writes the
    raw vector, scaled to the radius when it is longer than the radius. *)
Definition clamped (isDragging : bool) (rect : DOMRect) (e : MoveEvent) : Prop :=
  let v := raw rect e in
  match handleInteractionMove isDragging (Some rect) e with
  | None => isDragging = false
  | Some p =>
      isDragging = true
      /\ magnitude p <= radius rect
      /\ (magnitude v <= radius rect -> p = v)
      /\ (radius rect < magnitude v ->
            magnitude v <> 0
            /\ magnitude p = radius rect
            /\ x p = radius rect / magnitude v * x v
            /\ y p = radius rect / magnitude v * y v
            /\ (0 < radius rect ->
                  x p / magnitude p = x v / magnitude v
                  /\ y p / magnitude p = y v / magnitude v))
      /\ (v = mkPoint 0 0 -> p = mkPoint 0 0)
  end.


(** Coordinates of ordinary size: the pointer and the pad rectangle within
    100000 pixels of the origin of the viewport, the pad at least one pixel
    wide. *)
Definition ordinary (rect : DOMRect) (e : MoveEvent) : Prop :=
  -100000 <= left rect <= 100000
  /\ -100000 <= top rect <= 100000
  /\ 1 <= width rect <= 100000
  /\ 0 <= height rect <= 100000
  /\ -100000 <= fst (pointer e) <= 100000
  /\ -100000 <= snd (pointer e) <= 100000.


End Pad.

(** ** The application component *)

Module App.

(** The [useState] cells of [App]. *)
Record State : Type := mkState {
  originalImage : option string;
  editedImage : option string;
  isLoading : bool;
  error : option string;
  gazeOffset : Point;
  headOffset : Point;
  bodyOffset : Point
}.

Definition origin : Point := mkPoint 0 0.

(** The state on mount. *)
Definition initial : State :=
  mkState None None false None origin origin origin.

Definition setOriginalImage (v : option string) (s : State) : State :=
  mkState v (editedImage s) (isLoading s) (error s)
          (gazeOffset s) (headOffset s) (bodyOffset s).
Definition setEditedImage (v : option string) (s : State) : State :=
  mkState (originalImage s) v (isLoading s) (error s)
          (gazeOffset s) (headOffset s) (bodyOffset s).
Definition setIsLoading (v : bool) (s : State) : State :=
  mkState (originalImage s) (editedImage s) v (error s)
          (gazeOffset s) (headOffset s) (bodyOffset s).
Definition setError (v : option string) (s : State) : State :=
  mkState (originalImage s) (editedImage s) (isLoading s) v
          (gazeOffset s) (headOffset s) (bodyOffset s).
Definition setGazeOffset (v : Point) (s : State) : State :=
  mkState (originalImage s) (editedImage s) (isLoading s) (error s)
          v (headOffset s) (bodyOffset s).
Definition setHeadOffset (v : Point) (s : State) : State :=
  mkState (originalImage s) (editedImage s) (isLoading s) (error s)
          (gazeOffset s) v (bodyOffset s).
Definition setBodyOffset (v : Point) (s : State) : State :=
  mkState (originalImage s) (editedImage s) (isLoading s) (error s)
          (gazeOffset s) (headOffset s) v.

Definition handleReset (s : State) : State :=
  let s := setGazeOffset (mkPoint 0 0) s in
  let s := setHeadOffset (mkPoint 0 0) s in
  let s := setBodyOffset (mkPoint 0 0) s in
  setError None s.

(** [reader.onloadend] of [handleFileChange], with [reader.result], which
    is null when the file could not be read. *)
Definition onloadend (result : option string) (s : State) : State :=
  let s := setOriginalImage result s in
  let s := setEditedImage None s in
  handleReset s.

Definition generatePrompt (s : State) : string :=
  Composer.generatePrompt (gazeOffset s) (headOffset s) (bodyOffset s).

(** *** The generation service *)

(** [inlineData] of a part: both fields are optional in the service's
    types. *)
Record InlineData : Type :=
  mkInlineData { data : option string; inlineMimeType : option string }.

(** A part of the first candidate of a response. *)
Record Part : Type := mkPart { inlineData : option InlineData }.

(** The argument of [ai.models.generateContent]: the inline image and the
    text. *)
Record Request : Type := mkRequest {
  requestData : option string;
  requestMimeType : string;
  requestText : string
}.

(** How the awaited call settles: it resolves with a response, given by
    [response.candidates?.[0]?.content?.parts] (the empty list when a link
    of the chain is missing), or rejects with an error and its
    [message]. *)
Inductive Settled : Type :=
| Resolved (parts : list Part)
| Rejected (message : option string).

(** A value interpolated in a template literal. *)
Definition interpolate (v : option string) : string :=
  match v with Some s => s | None => "undefined" end.

(** The [catch] block followed by the [finally] block. *)
Definition catchFinally (message : option string) (s : State) : State :=
  let s := setError (Some (Js.or_else message "An unexpected error occurred.")) s in
  setIsLoading false s.

(** [generateImage] up to its [await]: the new state, and the request
    handed to the service when the function reaches the call. *)
Definition generateImage (API_KEY : option string) (s : State)
  : State * option Request :=
  if negb (Js.truthy (originalImage s)) then
    (setError (Some "Please upload an image first.") s, None)
  else
    let image := match originalImage s with Some i => i | None => "" end in
    let s1 := setIsLoading true s in
    let s1 := setError None s1 in
    let s1 := setEditedImage None s1 in
    if negb (Js.truthy API_KEY) then
      (catchFinally (Some "API_KEY is not set in environment variables.") s1, None)
    else
      match Transfer.dataUrlToInfo image with
      | Js.Throws message => (catchFinally message s1, None)
      | Js.Returns info =>
          let prompt := generatePrompt s in
          (s1, Some (mkRequest (Transfer.base64Data info)
                               (Transfer.mimeType info) prompt))
      end.

(** [generateImage] from the point where the awaited call settles. *)
Definition generateImage_resume (r : Settled) (s : State) : State :=
  match r with
  | Rejected message => catchFinally message s
  | Resolved parts =>
      match find (fun part => match inlineData part with
                              | Some _ => true | None => false end) parts with
      | Some (mkPart (Some d)) =>
          let newImageDataBase64 := data d in
          let newImageMimeType := inlineMimeType d in
          let s := setEditedImage
                     (Some (Transfer.dataUrl (interpolate newImageMimeType)
                                             (interpolate newImageDataBase64))) s in
          setIsLoading false s
      | _ =>
          catchFinally
            (Some "No image was generated. The response may have been blocked.") s
      end
  end.

(** *** The page as an event loop *)

Inductive PadId : Type := GazePad | HeadPad | BodyPad.

(** What the page reacts to: clicks on the two footer buttons, a file
    that finished loading, a [setOffset] call of a pad, and the awaited
    service call settling. *)
Inductive Event : Type :=
| ClickGenerate
| ClickReset
| FileLoaded (result : option string)
| PadOffset (pad : PadId) (offset : Point)
| ServiceSettled (r : Settled).

(** The component state together with the service calls that were made
    and have not settled yet. *)
Record World : Type := mkWorld { app : State; pending : list Request }.

Definition start : World := mkWorld initial [].

(** The footer, with the pads and the two buttons, is rendered only when
    an original image is present. *)
Definition footerRendered (s : State) : bool := Js.truthy (originalImage s).

(** [disabled={isLoading}] on the generate button. *)
Definition generateDisabled (s : State) : bool := isLoading s.

(** The loading flag is set exactly when one service call is pending, and
    no call is pending otherwise. *)
Definition consistent (w : World) : Prop :=
  (isLoading (app w) = true /\ exists c, pending w = [c])
  \/ (isLoading (app w) = false /\ pending w = []).

Section Loop.

Variable API_KEY : option string.

Definition step (w : World) (e : Event) : World :=
  match e with
  | ClickGenerate =>
      if footerRendered (app w) && negb (generateDisabled (app w)) then
        let '(s, call) := generateImage API_KEY (app w) in
        mkWorld s (pending w ++ match call with Some c => [c] | None => [] end)
      else w
  | ClickReset =>
      if footerRendered (app w) then mkWorld (handleReset (app w)) (pending w)
      else w
  | FileLoaded result => mkWorld (onloadend result (app w)) (pending w)
  | PadOffset pad offset =>
      if footerRendered (app w) then
        let s := match pad with
                 | GazePad => setGazeOffset offset (app w)
                 | HeadPad => setHeadOffset offset (app w)
                 | BodyPad => setBodyOffset offset (app w)
                 end in
        mkWorld s (pending w)
      else w
  | ServiceSettled r =>
      match pending w with
      | [] => w
      | _ :: rest => mkWorld (generateImage_resume r (app w)) rest
      end
  end.

Definition run (w : World) (events : list Event) : World :=
  fold_left step events w.

End Loop.

End App.

(** ** The page: the three pads and the application

    Each [DraggablePad] keeps its own [isDragging] flag and, while the flag
    is set, listens to the move and release events of the window; its
    offset is a state cell of [App]. *)

Module Page.

(** The [isDragging] flags of the three pads. *)
Record Dragging : Type :=
  mkDragging { gazeDragging : bool; headDragging : bool; bodyDragging : bool }.

Definition isDragging (d : Dragging) (pad : App.PadId) : bool :=
  match pad with
  | App.GazePad => gazeDragging d
  | App.HeadPad => headDragging d
  | App.BodyPad => bodyDragging d
  end.

Definition setIsDragging (pad : App.PadId) (v : bool) (d : Dragging) : Dragging :=
  match pad with
  | App.GazePad => mkDragging v (headDragging d) (bodyDragging d)
  | App.HeadPad => mkDragging (gazeDragging d) v (bodyDragging d)
  | App.BodyPad => mkDragging (gazeDragging d) (headDragging d) v
  end.

(** The flags of pads that were just mounted. *)
Definition released : Dragging := mkDragging false false false.

(** [padSize] of the pads: 128 by default, 160 for the body pad. *)
Definition padSize (pad : App.PadId) : R :=
  match pad with
  | App.GazePad => 128
  | App.HeadPad => 128
  | App.BodyPad => 160
  end.

(** The offset cell of a pad. *)
Definition offset (pad : App.PadId) (s : App.State) : Point :=
  match pad with
  | App.GazePad => App.gazeOffset s
  | App.HeadPad => App.headOffset s
  | App.BodyPad => App.bodyOffset s
  end.

(** What the page reacts to: a press on a pad ([handleInteractionStart]),
    a move or a release anywhere in the window, with the rectangle that each
    pad element has at that time, and the events of the application. *)
Inductive Event : Type :=
| Press (pad : App.PadId)
| WindowMove (padRef : App.PadId -> option Pad.DOMRect) (e : Pad.MoveEvent)
| WindowRelease
| ClickGenerate
| ClickReset
| FileLoaded (result : option string)
| ServiceSettled (r : App.Settled).

Record World : Type := mkWorld { shell : App.World; dragging : Dragging }.

Definition start : World := mkWorld App.start released.

Section Loop.

Variable API_KEY : option string.

(** The move listener of one pad, when it is registered. *)
Definition movePad
    (d : Dragging) (padRef : App.PadId -> option Pad.DOMRect)
    (e : Pad.MoveEvent) (w : App.World) (pad : App.PadId) : App.World :=
  if isDragging d pad then
    match Pad.handleInteractionMove (isDragging d pad) (padRef pad) e with
    | Some p => App.step API_KEY w (App.PadOffset pad p)
    | None => w
    end
  else w.

(** A press reaches a pad only when the footer is rendered; a move and a
    release reach the listeners of the pads that are dragged; a file whose
    reading failed leaves no original image, which unmounts the pads and
    with them their flags. *)
Definition step (w : World) (ev : Event) : World :=
  match ev with
  | Press pad =>
      if App.footerRendered (App.app (shell w))
      then mkWorld (shell w) (setIsDragging pad true (dragging w))
      else w
  | WindowMove padRef e =>
      mkWorld
        (fold_left (movePad (dragging w) padRef e)
                   [App.GazePad; App.HeadPad; App.BodyPad] (shell w))
        (dragging w)
  | WindowRelease => mkWorld (shell w) released
  | ClickGenerate => mkWorld (App.step API_KEY (shell w) App.ClickGenerate) (dragging w)
  | ClickReset => mkWorld (App.step API_KEY (shell w) App.ClickReset) (dragging w)
  | FileLoaded result =>
      mkWorld (App.step API_KEY (shell w) (App.FileLoaded result))
              (if Js.truthy result then dragging w else released)
  | ServiceSettled r =>
      mkWorld (App.step API_KEY (shell w) (App.ServiceSettled r)) (dragging w)
  end.

Definition run (w : World) (events : list Event) : World :=
  fold_left step events w.

End Loop.


(** The rectangles of a move event have the widths of the pads, and its
    coordinates are of ordinary size. *)
Definition ordinary (ev : Event) : Prop :=
  match ev with
  | WindowMove padRef e =>
      forall pad rect, padRef pad = Some rect ->
                       Pad.width rect = padSize pad /\ Pad.ordinary rect e
  | _ => True
  end.


End Page.

(** ** An executable composer on rational offsets

    The same decisions as [Composer.generatePrompt], taken on rational
    coordinates: a comparison of a distance with a bound [t >= 0] is taken
    on the squares.  [generatePrompt_exec] proves that the two agree, so
    that the composer can be evaluated at a rational input. *)

Module Exec.

Local Open Scope Q_scope.

Record PointQ : Type := mkPointQ { qx : Q; qy : Q }.

Definition ltb (a b : Q) : bool := negb (Qle_bool b a).

Definition norm2 (p : PointQ) : Q := qx p * qx p + qy p * qy p.

Definition vertical (p : PointQ) : string :=
  if ltb (qy p) (-15) then "up" else if ltb 15 (qy p) then "down" else "".

Definition horizontal (p : PointQ) : string :=
  if ltb (qx p) (-15) then "left" else if ltb 15 (qx p) then "right" else "".

Definition direction (p : PointQ) : string :=
  Js.join " and to the " (filter Js.Boolean [vertical p; horizontal p]).

(** [high] is 0.75 of the pad radius and [low] 0.4 of it. *)
Definition qualifier (low high : Q) (p : PointQ) : string :=
  if ltb (high * high) (norm2 p) then "significantly "
  else if ltb (norm2 p) (low * low) then "slightly "
  else "".

Definition phrase (template : string -> string) (p : PointQ) : list string :=
  if ltb (15 * 15) (norm2 p) then
    if Js.Boolean (direction p) then [template (direction p)] else []
  else [].

Definition generatePrompt (gazeOffset headOffset bodyOffset : PointQ) : string :=
  let promptParts :=
    (phrase (Axis.headTemplate (qualifier (128 # 5) 48 headOffset)) headOffset
     ++ phrase (Axis.bodyTemplate (qualifier 32 60 bodyOffset)) bodyOffset
     ++ phrase Axis.gazeTemplate gazeOffset)%list in
  Axis.render promptParts.

(** A rational offset as an offset. *)
Definition inject (p : PointQ) : Point := mkPoint (Q2R (qx p)) (Q2R (qy p)).

End Exec.

(** ** The code on binary64 numbers

    The move handler and the composer once more, on the numbers that the
    code computes with: every operation is the IEEE 754 binary64 operation,
    rounded to nearest, and a comparison with a NaN is false.  [x ** 2] is
    the product [x * x], which is what the engines compute for the exponent
    2.  These definitions evaluate; they are used at given inputs. *)

Module Double.

Import Stdlib.Floats.Floats.
Local Open Scope float_scope.

(* A decimal literal stands for the nearest binary64 number, as in the
   source. *)
#[local] Set Warnings "-inexact-float".

(** [a > b]. *)
Definition gtb (a b : float) : bool := PrimFloat.ltb b a.

Record Point : Type := mkPoint { x : float; y : float }.

Record DOMRect : Type :=
  mkRect { left : float; top : float; width : float; height : float }.

Record Touch : Type := mkTouch { touchX : float; touchY : float }.

Inductive MoveEvent : Type :=
| MouseEvent (clientX clientY : float)
| TouchEvent (touch0 : Touch) (others : list Touch).

Definition handleInteractionMove
    (isDragging : bool) (padRef : option DOMRect) (e : MoveEvent)
  : option Point :=
  match isDragging, padRef with
  | true, Some rect =>
      let clientX :=
        match e with TouchEvent t _ => touchX t | MouseEvent cx _ => cx end in
      let clientY :=
        match e with TouchEvent t _ => touchY t | MouseEvent _ cy => cy end in
      let centerX := left rect + width rect / 2 in
      let centerY := top rect + height rect / 2 in
      let dx := clientX - centerX in
      let dy := clientY - centerY in
      let radius := width rect / 2 in
      let distance := sqrt (dx * dx + dy * dy) in
      if gtb distance radius then
        Some (mkPoint ((dx / distance) * radius) ((dy / distance) * radius))
      else
        Some (mkPoint dx dy)
  | _, _ => None
  end.

Definition generatePrompt (gazeOffset headOffset bodyOffset : Point) : string :=
  let promptParts : list string := [] in
  let threshold := 15 in

  let headDistance := sqrt (x headOffset * x headOffset + y headOffset * y headOffset) in
  let promptParts :=
    if gtb headDistance threshold then
      let vertical :=
        if PrimFloat.ltb (y headOffset) (- threshold) then "up"
        else if gtb (y headOffset) threshold then "down" else "" in
      let horizontal :=
        if PrimFloat.ltb (x headOffset) (- threshold) then "left"
        else if gtb (x headOffset) threshold then "right" else "" in
      let headDirection :=
        Js.join " and to the " (filter Js.Boolean [vertical; horizontal]) in
      let padRadius := 64 in
      let tiltAmount :=
        if gtb headDistance (padRadius * 0.75) then "significantly "
        else if PrimFloat.ltb headDistance (padRadius * 0.4) then "slightly "
        else "" in
      if Js.Boolean headDirection then
        Js.push promptParts
          ("Tilt the main subject's head " ++ tiltAmount ++ headDirection ++ ".")
      else promptParts
    else promptParts in

  let bodyDistance := sqrt (x bodyOffset * x bodyOffset + y bodyOffset * y bodyOffset) in
  let promptParts :=
    if gtb bodyDistance threshold then
      let vertical :=
        if PrimFloat.ltb (y bodyOffset) (- threshold) then "up"
        else if gtb (y bodyOffset) threshold then "down" else "" in
      let horizontal :=
        if PrimFloat.ltb (x bodyOffset) (- threshold) then "left"
        else if gtb (x bodyOffset) threshold then "right" else "" in
      let bodyDirection :=
        Js.join " and to the " (filter Js.Boolean [vertical; horizontal]) in
      let padRadius := 80 in
      let turnAmount :=
        if gtb bodyDistance (padRadius * 0.75) then "significantly "
        else if PrimFloat.ltb bodyDistance (padRadius * 0.4) then "slightly "
        else "" in
      if Js.Boolean bodyDirection then
        Js.push promptParts
          ("Turn the main subject's body " ++ turnAmount ++ "to face "
             ++ bodyDirection ++ ".")
      else promptParts
    else promptParts in

  let gazeDistance := sqrt (x gazeOffset * x gazeOffset + y gazeOffset * y gazeOffset) in
  let promptParts :=
    if gtb gazeDistance threshold then
      let vertical :=
        if PrimFloat.ltb (y gazeOffset) (- threshold) then "up"
        else if gtb (y gazeOffset) threshold then "down" else "" in
      let horizontal :=
        if PrimFloat.ltb (x gazeOffset) (- threshold) then "left"
        else if gtb (x gazeOffset) threshold then "right" else "" in
      let gazeDirection :=
        Js.join " and to the " (filter Js.Boolean [vertical; horizontal]) in
      if Js.Boolean gazeDirection then
        Js.push promptParts ("Make the subject look " ++ gazeDirection ++ ".")
      else promptParts
    else promptParts in

  if (List.length promptParts =? 0)%nat then Composer.fallback
  else Js.join " " promptParts.

(** The rational number that a finite binary64 number is. *)
Definition exact (f : float) : option Q :=
  match Prim2SF f with
  | S754_zero _ => Some 0%Q
  | S754_finite s m e =>
      let z := if s then Z.neg m else Z.pos m in
      Some (if (0 <=? e)%Z then inject_Z (z * 2 ^ e)
            else (z # Pos.pow 2 (Z.to_pos (- e))))%Q
  | _ => None
  end.

(** The square of the exact Euclidean norm of an offset. *)
Definition norm2 (p : Point) : option Q :=
  match exact (x p), exact (y p) with
  | Some a, Some b => Some (a * a + b * b)%Q
  | _, _ => None
  end.

(** The norm of an offset as the code computes one. *)
Definition magnitude (p : Point) : float := sqrt (x p * x p + y p * y p).

(** The inputs of the examples: the head pad, of width 128 at (100,200); a
    pointer below it and one very far to the right; the offset that the
    handler writes for the pointer below; a head offset at a distance just
    above 48. *)
Definition origin : Point := mkPoint 0 0.
Definition headRadius : float := 64.

End Double.

(** * Properties *)

(** ** Comparisons and distances *)

Lemma ltb_iff (a b : R) : (a <? b) = true <-> a < b.
Proof.
  unfold Js.ltb. destruct (Rlt_dec a b); split; intros; try easy.
Qed.

Lemma ltb_true (a b : R) : a < b -> (a <? b) = true.
Proof. apply ltb_iff. Qed.

Lemma ltb_false (a b : R) : b <= a -> (a <? b) = false.
Proof.
  intros Hle. destruct (a <? b) eqn:E; [| reflexivity].
  apply ltb_iff in E. lra.
Qed.

Lemma gtb_true (a b : R) : b < a -> (a >? b) = true.
Proof. apply ltb_true. Qed.

Lemma gtb_false (a b : R) : a <= b -> (a >? b) = false.
Proof. apply ltb_false. Qed.

Lemma ltb_cases (a b : R) :
  (a < b /\ (a <? b) = true) \/ (b <= a /\ (a <? b) = false).
Proof.
  destruct (Rlt_le_dec a b) as [H | H].
  - left. split; [assumption | now apply ltb_true].
  - right. split; [assumption | now apply ltb_false].
Qed.

Lemma norm2_nonneg (a b : R) : 0 <= a ^ 2 + b ^ 2.
Proof. nra. Qed.

Lemma lt_sqrt_iff (a t : R) : 0 <= a -> 0 <= t -> (t < sqrt a <-> t * t < a).
Proof.
  intros Ha Ht. rewrite <- (sqrt_square t) at 1 by assumption. split.
  - apply sqrt_lt_0_alt.
  - intros H. apply sqrt_lt_1_alt. nra.
Qed.

Lemma sqrt_lt_iff (a t : R) : 0 <= a -> 0 <= t -> (sqrt a < t <-> a < t * t).
Proof.
  intros Ha Ht. rewrite <- (sqrt_square t) at 1 by assumption. split.
  - apply sqrt_lt_0_alt.
  - intros H. apply sqrt_lt_1_alt. nra.
Qed.

Lemma distance_gt_iff (p : Point) (t : R) :
  0 <= t -> (t < Axis.distance p <-> t * t < x p ^ 2 + y p ^ 2).
Proof. intros Ht. apply lt_sqrt_iff; [apply norm2_nonneg | assumption]. Qed.

Lemma distance_lt_iff (p : Point) (t : R) :
  0 <= t -> (Axis.distance p < t <-> x p ^ 2 + y p ^ 2 < t * t).
Proof. intros Ht. apply sqrt_lt_iff; [apply norm2_nonneg | assumption]. Qed.

(** ** The composer, axis by axis *)

(** [generatePrompt] pushes the head phrase, the body phrase and the gaze
    phrase, in this order, each when it exists, and joins what it pushed. *)
Lemma generatePrompt_phrases (gazeOffset headOffset bodyOffset : Point) :
  Composer.generatePrompt gazeOffset headOffset bodyOffset
  = Axis.render (Axis.phrases gazeOffset headOffset bodyOffset).
Proof.
  unfold Composer.generatePrompt, Axis.phrases, Axis.headPhrase, Axis.bodyPhrase,
    Axis.gazePhrase, Axis.qualifier, Axis.headTemplate, Axis.bodyTemplate,
    Axis.gazeTemplate, Axis.headRadius, Axis.bodyRadius.
  cbv zeta.
  fold (Axis.distance headOffset) (Axis.distance bodyOffset)
    (Axis.distance gazeOffset).
  change 15 with Axis.threshold.
  fold (Axis.vertical headOffset) (Axis.horizontal headOffset)
    (Axis.vertical bodyOffset) (Axis.horizontal bodyOffset)
    (Axis.vertical gazeOffset) (Axis.horizontal gazeOffset).
  fold (Axis.direction headOffset) (Axis.direction bodyOffset)
    (Axis.direction gazeOffset).
  destruct (Axis.distance headOffset >? Axis.threshold);
    destruct (Axis.distance bodyOffset >? Axis.threshold);
    destruct (Axis.distance gazeOffset >? Axis.threshold);
    destruct (Js.Boolean (Axis.direction headOffset));
    destruct (Js.Boolean (Axis.direction bodyOffset));
    destruct (Js.Boolean (Axis.direction gazeOffset));
    reflexivity.
Qed.

(** ** Agreement of the executable composer *)

Lemma ltb_Q2R (a b : Q) : (Q2R a <? Q2R b) = Exec.ltb a b.
Proof.
  unfold Exec.ltb. destruct (Qle_bool b a) eqn:E; cbn [negb].
  - apply ltb_false. apply Qle_Rle. now apply Qle_bool_iff.
  - apply ltb_true. apply Qlt_Rlt. apply Qnot_le_lt. intros H.
    apply Qle_bool_iff in H. congruence.
Qed.

Lemma norm2_inject (p : Exec.PointQ) :
  x (Exec.inject p) ^ 2 + y (Exec.inject p) ^ 2 = Q2R (Exec.norm2 p).
Proof.
  unfold Exec.norm2, Exec.inject. cbn [x y].
  rewrite Q2R_plus, !Q2R_mult. ring.
Qed.

Lemma distance_gtb_inject (p : Exec.PointQ) (t : Q) (r : R) :
  r = Q2R t -> (0 <= t)%Q ->
  (Axis.distance (Exec.inject p) >? r) = Exec.ltb (t * t) (Exec.norm2 p).
Proof.
  intros -> Ht. apply Qle_Rle in Ht. rewrite RMicromega.Q2R_0 in Ht.
  rewrite <- ltb_Q2R, Q2R_mult, <- norm2_inject. unfold Js.gtb.
  destruct (ltb_cases (Q2R t) (Axis.distance (Exec.inject p))) as [[H ->] | [H ->]];
    symmetry.
  - apply ltb_true. now apply distance_gt_iff.
  - apply ltb_false. apply Rnot_lt_le. intros H'.
    apply distance_gt_iff in H'; [lra | assumption].
Qed.

Lemma distance_ltb_inject (p : Exec.PointQ) (t : Q) (r : R) :
  r = Q2R t -> (0 <= t)%Q ->
  (Axis.distance (Exec.inject p) <? r) = Exec.ltb (Exec.norm2 p) (t * t).
Proof.
  intros -> Ht. apply Qle_Rle in Ht. rewrite RMicromega.Q2R_0 in Ht.
  rewrite <- ltb_Q2R, Q2R_mult, <- norm2_inject.
  destruct (ltb_cases (Axis.distance (Exec.inject p)) (Q2R t)) as [[H ->] | [H ->]];
    symmetry.
  - apply ltb_true. now apply distance_lt_iff.
  - apply ltb_false. apply Rnot_lt_le. intros H'.
    apply distance_lt_iff in H'; [lra | assumption].
Qed.

Lemma Q2R_literal (n : Z) (d : positive) (r : R) :
  r * IZR (Zpos d) = IZR n -> r = Q2R (n # d).
Proof.
  intros H. unfold Q2R. cbn [Qnum Qden].
  assert (Hd : 0 < IZR (Zpos d)) by (apply IZR_lt; reflexivity).
  apply (Rmult_eq_reg_r (IZR (Zpos d))); [| lra].
  rewrite H. field. lra.
Qed.

Lemma vertical_inject (p : Exec.PointQ) :
  Axis.vertical (Exec.inject p) = Exec.vertical p.
Proof.
  unfold Axis.vertical, Exec.vertical, Js.gtb, Axis.threshold, Exec.inject. cbn [y].
  replace 15 with (Q2R 15) by (symmetry; apply Q2R_literal; lra).
  rewrite <- Q2R_opp, !ltb_Q2R. reflexivity.
Qed.

Lemma horizontal_inject (p : Exec.PointQ) :
  Axis.horizontal (Exec.inject p) = Exec.horizontal p.
Proof.
  unfold Axis.horizontal, Exec.horizontal, Js.gtb, Axis.threshold, Exec.inject. cbn [x].
  replace 15 with (Q2R 15) by (symmetry; apply Q2R_literal; lra).
  rewrite <- Q2R_opp, !ltb_Q2R. reflexivity.
Qed.

Lemma direction_inject (p : Exec.PointQ) :
  Axis.direction (Exec.inject p) = Exec.direction p.
Proof.
  unfold Axis.direction, Exec.direction.
  now rewrite vertical_inject, horizontal_inject.
Qed.

Lemma deadzone_inject (p : Exec.PointQ) :
  (Axis.distance (Exec.inject p) >? Axis.threshold)
  = Exec.ltb (15 * 15) (Exec.norm2 p).
Proof.
  apply distance_gtb_inject; [| easy].
  unfold Axis.threshold. apply Q2R_literal. lra.
Qed.

Lemma headQualifier_inject (p : Exec.PointQ) :
  Axis.qualifier Axis.headRadius (Exec.inject p) = Exec.qualifier (128 # 5) 48 p.
Proof.
  unfold Axis.qualifier, Exec.qualifier, Axis.headRadius.
  rewrite (distance_gtb_inject p 48), (distance_ltb_inject p (128 # 5));
    try easy; apply Q2R_literal; lra.
Qed.

Lemma bodyQualifier_inject (p : Exec.PointQ) :
  Axis.qualifier Axis.bodyRadius (Exec.inject p) = Exec.qualifier 32 60 p.
Proof.
  unfold Axis.qualifier, Exec.qualifier, Axis.bodyRadius.
  rewrite (distance_gtb_inject p 60), (distance_ltb_inject p 32);
    try easy; apply Q2R_literal; lra.
Qed.

(** [Exec.generatePrompt] computes [Composer.generatePrompt] at rational
    offsets. *)
Lemma generatePrompt_exec (gazeOffset headOffset bodyOffset : Exec.PointQ) :
  Composer.generatePrompt (Exec.inject gazeOffset) (Exec.inject headOffset)
    (Exec.inject bodyOffset)
  = Exec.generatePrompt gazeOffset headOffset bodyOffset.
Proof.
  rewrite generatePrompt_phrases.
  unfold Exec.generatePrompt, Axis.phrases. f_equal.
  unfold Axis.headPhrase, Axis.bodyPhrase, Axis.gazePhrase, Exec.phrase.
  rewrite !deadzone_inject, !direction_inject, headQualifier_inject,
    bodyQualifier_inject.
  destruct (Exec.ltb (15 * 15) (Exec.norm2 headOffset));
    destruct (Exec.ltb (15 * 15) (Exec.norm2 bodyOffset));
    destruct (Exec.ltb (15 * 15) (Exec.norm2 gazeOffset));
    destruct (Js.Boolean (Exec.direction headOffset));
    destruct (Js.Boolean (Exec.direction bodyOffset));
    destruct (Js.Boolean (Exec.direction gazeOffset));
    reflexivity.
Qed.

(** ** Direction labels *)

Lemma vertical_cases (p : Point) :
  (y p < -15 /\ Axis.vertical p = "up")
  \/ (15 < y p /\ Axis.vertical p = "down")
  \/ (-15 <= y p <= 15 /\ Axis.vertical p = "").
Proof.
  unfold Axis.vertical, Js.gtb.
  destruct (ltb_cases (y p) (- Axis.threshold)) as [[H ->] | [H ->]];
    [| destruct (ltb_cases Axis.threshold (y p)) as [[H' ->] | [H' ->]] ];
    unfold Axis.threshold in *.
  - left. split; [lra | reflexivity].
  - right; left. split; [lra | reflexivity].
  - right; right. split; [lra | reflexivity].
Qed.

Lemma horizontal_cases (p : Point) :
  (x p < -15 /\ Axis.horizontal p = "left")
  \/ (15 < x p /\ Axis.horizontal p = "right")
  \/ (-15 <= x p <= 15 /\ Axis.horizontal p = "").
Proof.
  unfold Axis.horizontal, Js.gtb.
  destruct (ltb_cases (x p) (- Axis.threshold)) as [[H ->] | [H ->]];
    [| destruct (ltb_cases Axis.threshold (x p)) as [[H' ->] | [H' ->]] ];
    unfold Axis.threshold in *.
  - left. split; [lra | reflexivity].
  - right; left. split; [lra | reflexivity].
  - right; right. split; [lra | reflexivity].
Qed.

(** The nine values of a direction label. *)
Lemma direction_cases (p : Point) :
  let d := Axis.direction p in
  (~ Axis.labelled p /\ d = "")
  \/ (Axis.labelled p
      /\ (d = "up" \/ d = "down" \/ d = "left" \/ d = "right"
          \/ d = "up and to the left" \/ d = "up and to the right"
          \/ d = "down and to the left" \/ d = "down and to the right")).
Proof.
  unfold Axis.direction, Axis.labelled, Axis.threshold.
  destruct (vertical_cases p) as [[Hy ->] | [[Hy ->] | [Hy ->]]];
    destruct (horizontal_cases p) as [[Hx ->] | [[Hx ->] | [Hx ->]]];
    cbn; first [ left; split; [lra | reflexivity]
               | right; split; [lra | tauto] ].
Qed.

Lemma direction_labelled (p : Point) :
  Axis.labelled p -> Js.Boolean (Axis.direction p) = true.
Proof.
  intros H. destruct (direction_cases p) as [[Hn _] | [_ Hd]]; [contradiction |].
  decompose [or] Hd; match goal with E : _ = _ |- _ => rewrite E end; reflexivity.
Qed.

Lemma direction_unlabelled (p : Point) :
  ~ Axis.labelled p -> Axis.direction p = "".
Proof.
  intros H. destruct (direction_cases p) as [[_ Hd] | [Hl _]]; [exact Hd | contradiction].
Qed.

(** A component past the threshold puts the distance past it. *)
Lemma labelled_distance (p : Point) :
  Axis.labelled p -> 15 < Axis.distance p.
Proof.
  unfold Axis.labelled, Axis.threshold. intros H.
  apply distance_gt_iff; [lra |]. nra.
Qed.

(** Past [15 * sqrt 2] some component is past the threshold. *)
Lemma far_labelled (p : Point) (t : R) :
  450 < t * t -> 0 <= t -> t <= Axis.distance p -> Axis.labelled p.
Proof.
  intros Ht H0 Hd. unfold Axis.labelled, Axis.threshold.
  assert (Hn : t * t <= x p ^ 2 + y p ^ 2).
  { apply Rnot_lt_le. intros Hlt. apply distance_lt_iff in Hlt; lra. }
  destruct (Rlt_le_dec (y p) (-15)); [tauto |].
  destruct (Rlt_le_dec 15 (y p)); [tauto |].
  destruct (Rlt_le_dec (x p) (-15)); [tauto |].
  destruct (Rlt_le_dec 15 (x p)); [tauto |].
  exfalso.
  assert (Hx : 0 <= (15 - x p) * (x p + 15)) by (apply Rmult_le_pos; lra).
  assert (Hy : 0 <= (15 - y p) * (y p + 15)) by (apply Rmult_le_pos; lra).
  lra.
Qed.

Lemma headPhrase_labelled (p : Point) :
  Axis.labelled p ->
  Axis.headPhrase p
  = Some (Axis.headTemplate (Axis.qualifier Axis.headRadius p) (Axis.direction p)).
Proof.
  intros H. unfold Axis.headPhrase.
  rewrite gtb_true by (apply labelled_distance; assumption).
  now rewrite direction_labelled.
Qed.

Lemma bodyPhrase_labelled (p : Point) :
  Axis.labelled p ->
  Axis.bodyPhrase p
  = Some (Axis.bodyTemplate (Axis.qualifier Axis.bodyRadius p) (Axis.direction p)).
Proof.
  intros H. unfold Axis.bodyPhrase.
  rewrite gtb_true by (apply labelled_distance; assumption).
  now rewrite direction_labelled.
Qed.

Lemma gazePhrase_labelled (p : Point) :
  Axis.labelled p ->
  Axis.gazePhrase p = Some (Axis.gazeTemplate (Axis.direction p)).
Proof.
  intros H. unfold Axis.gazePhrase.
  rewrite gtb_true by (apply labelled_distance; assumption).
  now rewrite direction_labelled.
Qed.

Lemma phrases_unlabelled (p : Point) :
  ~ Axis.labelled p ->
  Axis.headPhrase p = None /\ Axis.bodyPhrase p = None /\ Axis.gazePhrase p = None.
Proof.
  intros H. unfold Axis.headPhrase, Axis.bodyPhrase, Axis.gazePhrase.
  rewrite (direction_unlabelled p H). cbn.
  destruct (Axis.distance p >? Axis.threshold); auto.
Qed.

Lemma phrases_deadzone (p : Point) :
  Axis.distance p <= 15 ->
  Axis.headPhrase p = None /\ Axis.bodyPhrase p = None /\ Axis.gazePhrase p = None.
Proof.
  intros H. unfold Axis.headPhrase, Axis.bodyPhrase, Axis.gazePhrase, Axis.threshold.
  rewrite gtb_false by assumption. auto.
Qed.

Lemma qualifier_high (r : R) (p : Point) :
  r * 0.75 < Axis.distance p -> Axis.qualifier r p = "significantly ".
Proof. intros H. unfold Axis.qualifier. now rewrite gtb_true. Qed.

Lemma qualifier_low (r : R) (p : Point) :
  Axis.distance p < r * 0.4 -> 0 <= r -> Axis.qualifier r p = "slightly ".
Proof.
  intros H Hr. unfold Axis.qualifier.
  rewrite gtb_false by lra. now rewrite ltb_true.
Qed.

Lemma qualifier_middle (r : R) (p : Point) :
  r * 0.4 <= Axis.distance p <= r * 0.75 -> Axis.qualifier r p = "".
Proof.
  intros H. unfold Axis.qualifier.
  rewrite gtb_false by lra. now rewrite ltb_false by lra.
Qed.

(** ** Evaluating the composer *)

Lemma inject_literal (a b : R) (q : Exec.PointQ) :
  a = Q2R (Exec.qx q) -> b = Q2R (Exec.qy q) -> mkPoint a b = Exec.inject q.
Proof. intros -> ->. reflexivity. Qed.

Lemma generatePrompt_at (g h b : Exec.PointQ) (g' h' b' : Point) :
  g' = Exec.inject g -> h' = Exec.inject h -> b' = Exec.inject b ->
  Composer.generatePrompt g' h' b' = Exec.generatePrompt g h b.
Proof. intros -> -> ->. apply generatePrompt_exec. Qed.

Ltac literal := apply inject_literal; cbn [Exec.qx Exec.qy]; apply Q2R_literal; lra.

Lemma distance_origin : Axis.distance App.origin = 0.
Proof.
  unfold Axis.distance, App.origin. cbn [x y].
  replace (0 ^ 2 + 0 ^ 2) with 0 by ring. apply sqrt_0.
Qed.

Lemma phrases_origin :
  Axis.headPhrase App.origin = None /\ Axis.bodyPhrase App.origin = None
  /\ Axis.gazePhrase App.origin = None.
Proof. apply phrases_deadzone. rewrite distance_origin. lra. Qed.

(** With the other two pads at rest, the prompt is the phrase of the one
    axis, or the fallback sentence when the axis has no phrase. *)
Lemma generatePrompt_head_only (p : Point) :
  Composer.generatePrompt App.origin p App.origin
  = Axis.render (Axis.toList (Axis.headPhrase p)).
Proof.
  rewrite generatePrompt_phrases. unfold Axis.phrases.
  destruct phrases_origin as (_ & -> & ->). cbn [Axis.toList].
  now rewrite app_nil_r.
Qed.

Lemma generatePrompt_body_only (p : Point) :
  Composer.generatePrompt App.origin App.origin p
  = Axis.render (Axis.toList (Axis.bodyPhrase p)).
Proof.
  rewrite generatePrompt_phrases. unfold Axis.phrases.
  destruct phrases_origin as (-> & _ & ->). cbn [Axis.toList app].
  now rewrite app_nil_r.
Qed.

Lemma generatePrompt_gaze_only (p : Point) :
  Composer.generatePrompt p App.origin App.origin
  = Axis.render (Axis.toList (Axis.gazePhrase p)).
Proof.
  rewrite generatePrompt_phrases. unfold Axis.phrases.
  destruct phrases_origin as (-> & -> & _). reflexivity.
Qed.

(** ** The composer: order of the phrases *)

(** C1, as amended.  For head offset (0,-30), body offset (30,0) and gaze
    offset (0,30) the prompt is the head phrase, then the body phrase, then
    the gaze phrase, joined by single spaces.  The head and gaze phrases
    carry no qualifier; the body phrase carries "slightly", because the
    body pad has radius 80 and 30 is below 0.4 * 80 = 32. *)
Theorem generatePrompt_order_example :
  let gaze := mkPoint 0 30 in
  let head := mkPoint 0 (-30) in
  let body := mkPoint 30 0 in
  Composer.generatePrompt gaze head body
  = Js.join " " [ Axis.headTemplate "" "up";
                  Axis.bodyTemplate "slightly " "right";
                  Axis.gazeTemplate "down" ]
  /\ Composer.generatePrompt gaze head body
     = "Tilt the main subject's head up. Turn the main subject's body slightly to face right. Make the subject look down."
  /\ Axis.distance body = 30 /\ Axis.qualifier Axis.bodyRadius body = "slightly ".
Proof.
  cbv zeta.
  rewrite (generatePrompt_at (Exec.mkPointQ 0 30) (Exec.mkPointQ 0 (-30))
             (Exec.mkPointQ 30 0)) by literal.
  assert (Hd : Axis.distance (mkPoint 30 0) = 30).
  { unfold Axis.distance. cbn [x y].
    replace (30 ^ 2 + 0 ^ 2) with (30 * 30) by ring. apply sqrt_square. lra. }
  repeat split; try reflexivity; try exact Hd.
  apply qualifier_low; [rewrite Hd; unfold Axis.bodyRadius; lra |].
  unfold Axis.bodyRadius. lra.
Qed.

(** C1, as stated, fails: the prompt for these offsets is not the sentence
    with an unqualified body phrase. *)
Lemma generatePrompt_order_example_unqualified :
  Composer.generatePrompt (mkPoint 0 30) (mkPoint 0 (-30)) (mkPoint 30 0)
  <> "Tilt the main subject's head up. Turn the main subject's body to face right. Make the subject look down.".
Proof.
  rewrite (generatePrompt_at (Exec.mkPointQ 0 30) (Exec.mkPointQ 0 (-30))
             (Exec.mkPointQ 30 0)) by literal.
  intros H. apply String.eqb_eq in H. vm_compute in H. discriminate H.
Qed.

(** ** The composer: fallback *)

(** C5.  When the three offsets are within the deadzone (distance at most
    15), the composer returns the fallback sentence. *)
Theorem generatePrompt_fallback (gazeOffset headOffset bodyOffset : Point) :
  Axis.distance gazeOffset <= 15 ->
  Axis.distance headOffset <= 15 ->
  Axis.distance bodyOffset <= 15 ->
  Composer.generatePrompt gazeOffset headOffset bodyOffset
  = "Make a high-quality, photorealistic image of the subject, keeping the style the same.".
Proof.
  intros Hg Hh Hb. rewrite generatePrompt_phrases. unfold Axis.phrases.
  destruct (phrases_deadzone _ Hg) as (_ & _ & ->).
  destruct (phrases_deadzone _ Hh) as (-> & _ & _).
  destruct (phrases_deadzone _ Hb) as (_ & -> & _).
  reflexivity.
Qed.

(** The instance of C5 at three offsets (0,0). *)
Lemma generatePrompt_fallback_origin :
  Composer.generatePrompt (mkPoint 0 0) (mkPoint 0 0) (mkPoint 0 0)
  = "Make a high-quality, photorealistic image of the subject, keeping the style the same.".
Proof.
  apply (generatePrompt_fallback (mkPoint 0 0) (mkPoint 0 0) (mkPoint 0 0));
    change (mkPoint 0 0) with App.origin; rewrite distance_origin; lra.
Defined.

(** ** The composer: deadzone *)

Lemma labels_unlabelled (p : Point) :
  ~ Axis.labelled p -> Axis.vertical p = "" /\ Axis.horizontal p = "".
Proof.
  unfold Axis.labelled, Axis.threshold. intros H.
  destruct (vertical_cases p) as [[Hy _] | [[Hy _] | [_ ->]]]; [lra | lra |].
  destruct (horizontal_cases p) as [[Hx _] | [[Hx _] | [_ ->]]]; [lra | lra |].
  split; reflexivity.
Qed.

Lemma direction_nonempty (p : Point) :
  Axis.labelled p -> Axis.direction p <> "".
Proof.
  intros H E. apply direction_labelled in H. rewrite E in H. discriminate H.
Qed.

(** C4, as amended.  On every axis, an offset at distance exactly 15 adds no
    phrase; an offset adds a phrase exactly when one of its components is
    past 15 in absolute value, which puts its distance above 15; an offset
    at a distance above 15 with both components within 15 has two empty
    labels and adds no phrase. *)
Theorem deadzone_phrases (p : Point) :
  (Axis.distance p = 15 ->
     Axis.headPhrase p = None /\ Axis.bodyPhrase p = None
     /\ Axis.gazePhrase p = None
     /\ Composer.generatePrompt App.origin p App.origin = Composer.fallback
     /\ Composer.generatePrompt App.origin App.origin p = Composer.fallback
     /\ Composer.generatePrompt p App.origin App.origin = Composer.fallback)
  /\ (Axis.labelled p ->
        15 < Axis.distance p /\ Axis.direction p <> ""
        /\ Axis.headPhrase p
           = Some (Axis.headTemplate (Axis.qualifier Axis.headRadius p)
                                     (Axis.direction p))
        /\ Axis.bodyPhrase p
           = Some (Axis.bodyTemplate (Axis.qualifier Axis.bodyRadius p)
                                     (Axis.direction p))
        /\ Axis.gazePhrase p = Some (Axis.gazeTemplate (Axis.direction p)))
  /\ (15 < Axis.distance p -> ~ Axis.labelled p ->
        Axis.vertical p = "" /\ Axis.horizontal p = ""
        /\ Axis.headPhrase p = None /\ Axis.bodyPhrase p = None
        /\ Axis.gazePhrase p = None
        /\ Composer.generatePrompt App.origin p App.origin = Composer.fallback
        /\ Composer.generatePrompt App.origin App.origin p = Composer.fallback
        /\ Composer.generatePrompt p App.origin App.origin = Composer.fallback).
Proof.
  split; [| split].
  - intros Hd.
    assert (Hle : Axis.distance p <= 15) by lra.
    rewrite generatePrompt_head_only, generatePrompt_body_only,
      generatePrompt_gaze_only.
    destruct (phrases_deadzone p Hle) as (-> & -> & ->). repeat split.
  - intros Hl. split; [now apply labelled_distance |].
    split; [now apply direction_nonempty |].
    now rewrite headPhrase_labelled, bodyPhrase_labelled, gazePhrase_labelled.
  - intros _ Hn.
    rewrite generatePrompt_head_only, generatePrompt_body_only,
      generatePrompt_gaze_only.
    destruct (labels_unlabelled p Hn) as (-> & ->).
    destruct (phrases_unlabelled p Hn) as (-> & -> & ->). repeat split.
Qed.

Lemma distance_axis_x (a : R) : 0 <= a -> Axis.distance (mkPoint a 0) = a.
Proof.
  intros Ha. unfold Axis.distance. cbn [x y].
  replace (a ^ 2 + 0 ^ 2) with (a * a) by ring. now apply sqrt_square.
Qed.

Lemma corner_distance : 15 < Axis.distance (mkPoint 11 11) < 15.6.
Proof.
  split.
  - apply distance_gt_iff; cbn [x y]; lra.
  - apply distance_lt_iff; cbn [x y]; lra.
Qed.

Lemma corner_unlabelled : ~ Axis.labelled (mkPoint 11 11).
Proof. unfold Axis.labelled, Axis.threshold. cbn [x y]. lra. Qed.

(** The three parts of C4 at the offsets (15,0), (16,0) and (11,11). *)
Lemma deadzone_phrases_instances :
  Axis.headPhrase (mkPoint 15 0) = None
  /\ Axis.gazePhrase (mkPoint 16 0)
     = Some (Axis.gazeTemplate (Axis.direction (mkPoint 16 0)))
  /\ Axis.gazePhrase (mkPoint 11 11) = None.
Proof.
  split; [| split].
  - apply (proj1 (deadzone_phrases (mkPoint 15 0))).
    apply distance_axis_x. lra.
  - apply (proj1 (proj2 (deadzone_phrases (mkPoint 16 0)))).
    unfold Axis.labelled, Axis.threshold. cbn [x y]. lra.
  - apply (proj2 (proj2 (deadzone_phrases (mkPoint 11 11)))).
    + apply corner_distance.
    + apply corner_unlabelled.
Defined.

(** C4, as stated, fails at the offset (11,11): its distance is above 15
    (and below 15.6), both labels are empty, so the case called impossible
    occurs, and no axis produces a phrase for it. *)
Lemma deadzone_corner :
  let p := mkPoint 11 11 in
  15 < Axis.distance p < 15.6
  /\ Axis.vertical p = "" /\ Axis.horizontal p = ""
  /\ Axis.headPhrase p = None /\ Axis.bodyPhrase p = None
  /\ Axis.gazePhrase p = None
  /\ Composer.generatePrompt p p p = Composer.fallback.
Proof.
  cbv zeta. split; [exact corner_distance |].
  destruct (labels_unlabelled _ corner_unlabelled) as (-> & ->).
  destruct (phrases_unlabelled _ corner_unlabelled) as (Hh & Hb & Hg).
  rewrite generatePrompt_phrases. unfold Axis.phrases.
  rewrite Hh, Hb, Hg. repeat split.
Qed.

(** ** The composer: intensity qualifiers *)

Lemma gaze_unqualified (d : string) :
  d = "up" \/ d = "down" \/ d = "left" \/ d = "right"
  \/ d = "up and to the left" \/ d = "up and to the right"
  \/ d = "down and to the left" \/ d = "down and to the right" ->
  index 0 "slightly" (Axis.gazeTemplate d) = None
  /\ index 0 "significantly" (Axis.gazeTemplate d) = None.
Proof.
  intros H. decompose [or] H; subst d; split; vm_compute; reflexivity.
Qed.

(** The qualifiers in exact arithmetic.  A head offset (pad radius 64)
    whose distance is above 48 gives a phrase with "significantly"; one
    whose distance is below 25.6 gives a phrase with "slightly" when one of
    its components is past 15, and no phrase otherwise; between the two the
    phrase has no qualifier.  The same holds of a body offset (pad radius
    80) with 60 and 32.  A gaze phrase is the direction alone: it contains
    neither qualifier. *)
Lemma intensity_qualifier (p : Point) :
  (64 * 0.75 < Axis.distance p ->
     Axis.headPhrase p
     = Some (Axis.headTemplate "significantly " (Axis.direction p)))
  /\ (Axis.distance p < 64 * 0.4 -> Axis.labelled p ->
        Axis.headPhrase p
        = Some (Axis.headTemplate "slightly " (Axis.direction p)))
  /\ (64 * 0.4 <= Axis.distance p <= 64 * 0.75 ->
        Axis.headPhrase p = Some (Axis.headTemplate "" (Axis.direction p)))
  /\ (80 * 0.75 < Axis.distance p ->
        Axis.bodyPhrase p
        = Some (Axis.bodyTemplate "significantly " (Axis.direction p)))
  /\ (Axis.distance p < 80 * 0.4 -> Axis.labelled p ->
        Axis.bodyPhrase p
        = Some (Axis.bodyTemplate "slightly " (Axis.direction p)))
  /\ (80 * 0.4 <= Axis.distance p <= 80 * 0.75 ->
        Axis.bodyPhrase p = Some (Axis.bodyTemplate "" (Axis.direction p)))
  /\ (Axis.distance p = 50 ->
        Axis.headPhrase p
        = Some (Axis.headTemplate "significantly " (Axis.direction p)))
  /\ (Axis.distance p = 20 -> Axis.labelled p ->
        Axis.headPhrase p
        = Some (Axis.headTemplate "slightly " (Axis.direction p)))
  /\ (Axis.distance p < 64 * 0.4 -> ~ Axis.labelled p -> Axis.headPhrase p = None)
  /\ (Axis.distance p < 80 * 0.4 -> ~ Axis.labelled p -> Axis.bodyPhrase p = None)
  /\ (forall s, Axis.gazePhrase p = Some s ->
        s = Axis.gazeTemplate (Axis.direction p)
        /\ index 0 "slightly" s = None /\ index 0 "significantly" s = None).
Proof.
  assert (Hhigh : forall t, 450 < t * t -> 0 <= t -> t <= Axis.distance p ->
                            Axis.labelled p)
    by (intros t; apply far_labelled).
  repeat match goal with |- _ /\ _ => split end.
  - intros H. rewrite headPhrase_labelled by (apply (Hhigh 48); lra).
    unfold Axis.headRadius. now rewrite qualifier_high.
  - intros H Hl. rewrite headPhrase_labelled by assumption.
    unfold Axis.headRadius. now rewrite qualifier_low by lra.
  - intros H. rewrite headPhrase_labelled by (apply (Hhigh 25.6); lra).
    unfold Axis.headRadius. now rewrite qualifier_middle.
  - intros H. rewrite bodyPhrase_labelled by (apply (Hhigh 60); lra).
    unfold Axis.bodyRadius. now rewrite qualifier_high.
  - intros H Hl. rewrite bodyPhrase_labelled by assumption.
    unfold Axis.bodyRadius. now rewrite qualifier_low by lra.
  - intros H. rewrite bodyPhrase_labelled by (apply (Hhigh 32); lra).
    unfold Axis.bodyRadius. now rewrite qualifier_middle.
  - intros H. rewrite headPhrase_labelled by (apply (Hhigh 50); lra).
    unfold Axis.headRadius. now rewrite qualifier_high by lra.
  - intros H Hl. rewrite headPhrase_labelled by assumption.
    unfold Axis.headRadius. now rewrite qualifier_low by lra.
  - intros _ Hn. apply (phrases_unlabelled p Hn).
  - intros _ Hn. apply (phrases_unlabelled p Hn).
  - intros s Hs.
    destruct (direction_cases p) as [[Hn _] | [Hl Hd]].
    + destruct (phrases_unlabelled p Hn) as (_ & _ & Hg). congruence.
    + rewrite gazePhrase_labelled in Hs by assumption.
      injection Hs as <-. split; [reflexivity |].
      now apply gaze_unqualified.
Qed.

Lemma distance_20 : Axis.distance (mkPoint (400 / 29) (420 / 29)) = 20.
Proof.
  unfold Axis.distance. cbn [x y].
  replace ((400 / 29) ^ 2 + (420 / 29) ^ 2) with (20 * 20) by field.
  apply sqrt_square. lra.
Qed.

Lemma distance_20_unlabelled : ~ Axis.labelled (mkPoint (400 / 29) (420 / 29)).
Proof. unfold Axis.labelled, Axis.threshold. cbn [x y]. lra. Qed.

Lemma distance_50 : Axis.distance (mkPoint 30 40) = 50.
Proof.
  unfold Axis.distance. cbn [x y].
  replace (30 ^ 2 + 40 ^ 2) with (50 * 50) by ring.
  apply sqrt_square. lra.
Qed.

(** The qualifiers in exact arithmetic at head offsets at distance 50 and
    20: (30,40), (20,0) and (400/29, 420/29). *)
Lemma intensity_qualifier_instances :
  Axis.headPhrase (mkPoint 30 40)
  = Some (Axis.headTemplate "significantly " (Axis.direction (mkPoint 30 40)))
  /\ Axis.headPhrase (mkPoint 20 0)
     = Some (Axis.headTemplate "slightly " (Axis.direction (mkPoint 20 0)))
  /\ Axis.headPhrase (mkPoint (400 / 29) (420 / 29)) = None.
Proof.
  split; [| split].
  - apply (intensity_qualifier (mkPoint 30 40)). exact distance_50.
  - apply (intensity_qualifier (mkPoint 20 0)).
    + apply distance_axis_x. lra.
    + unfold Axis.labelled, Axis.threshold. cbn [x y]. lra.
  - apply (intensity_qualifier (mkPoint (400 / 29) (420 / 29))).
    + rewrite distance_20. lra.
    + exact distance_20_unlabelled.
Defined.




(** ** The pad controller: clamping *)

Lemma raw_event (rect : Pad.DOMRect) (e : Pad.MoveEvent) :
  Pad.raw rect e
  = mkPoint
      (match e with Pad.TouchEvent t _ => Pad.touchX t | Pad.MouseEvent cx _ => cx end
       - (Pad.left rect + Pad.width rect / 2))
      (match e with Pad.TouchEvent t _ => Pad.touchY t | Pad.MouseEvent _ cy => cy end
       - (Pad.top rect + Pad.height rect / 2)).
Proof. destruct e; reflexivity. Qed.

(** A vector longer than [r >= 0], scaled by [r] over its length, has
    length [r]. *)
Lemma scaled_magnitude (dx dy r : R) :
  0 <= r -> r < sqrt (dx * dx + dy * dy) ->
  let d := sqrt (dx * dx + dy * dy) in
  Pad.magnitude (mkPoint (dx / d * r) (dy / d * r)) = r.
Proof.
  intros Hr Hd d. fold d in Hd.
  assert (Hdd : d * d = dx * dx + dy * dy) by (apply sqrt_sqrt; nra).
  unfold Pad.magnitude. cbn [x y].
  replace (dx / d * r * (dx / d * r) + dy / d * r * (dy / d * r)) with (r * r).
  - now apply sqrt_square.
  - transitivity (r * r * (dx * dx + dy * dy) / (d * d)).
    + rewrite <- Hdd. field. lra.
    + field. lra.
Qed.

(** The clamp in exact arithmetic.  On a pad whose rectangle has a
    non-negative width, a call of the move handler either writes nothing
    (the pad is not dragged) or writes an offset whose magnitude is at most
    the radius, half of the width.  When the vector from the centre to the
    pointer is longer than the radius, the offset is that vector scaled by
    radius over length: its magnitude is exactly the radius, the divisor is
    not zero, and the unit vector is unchanged.  A pointer at the centre
    gives the offset (0,0).  Without a pad element the handler writes
    nothing. *)
Lemma handleInteractionMove_clamped
    (isDragging : bool) (rect : Pad.DOMRect) (e : Pad.MoveEvent) :
  0 <= Pad.width rect ->
  Pad.clamped isDragging rect e
  /\ Pad.handleInteractionMove isDragging None e = None.
Proof.
  intros Hw. split; [| destruct isDragging; reflexivity].
  unfold Pad.clamped. rewrite raw_event.
  destruct isDragging; cbn [Pad.handleInteractionMove]; [| reflexivity].
  set (dx := _ - (Pad.left rect + _)).
  set (dy := _ - (Pad.top rect + _)).
  cbv zeta. fold (Pad.radius rect).
  assert (Hr : 0 <= Pad.radius rect) by (unfold Pad.radius; lra).
  set (r := Pad.radius rect) in *.
  assert (Hv : Pad.magnitude (mkPoint dx dy) = sqrt (dx * dx + dy * dy))
    by reflexivity.
  rewrite Hv. set (d := sqrt (dx * dx + dy * dy)) in *.
  unfold Js.gtb.
  destruct (ltb_cases r d) as [[Hlt ->] | [Hle ->]].
  - assert (Hm : Pad.magnitude (mkPoint (dx / d * r) (dy / d * r)) = r)
      by (apply scaled_magnitude; assumption).
    split; [reflexivity |]. split; [lra |]. split; [intros; lra |].
    split.
    + intros _. split; [lra |]. split; [exact Hm |]. cbn [x y].
      split; [field; lra |]. split; [field; lra |].
      intros Hpos. rewrite Hm. split; field; lra.
    + intros E. injection E as Ex Ey. exfalso.
      assert (d = 0); [| lra].
      unfold d. rewrite Ex, Ey.
      replace (0 * 0 + 0 * 0) with 0 by ring. apply sqrt_0.
  - split; [reflexivity |]. split; [rewrite Hv; exact Hle |].
    split; [reflexivity |]. split; [intros; lra |]. auto.
Qed.

(** The clamp in exact arithmetic on the head pad, of width 128 at
    (100,200), with the mouse at (300,264), to the right of the pad. *)
Lemma handleInteractionMove_clamped_example :
  Pad.clamped true (Pad.mkRect 100 200 128 128) (Pad.MouseEvent 300 264)
  /\ Pad.handleInteractionMove true None (Pad.MouseEvent 300 264) = None.
Proof.
  apply (handleInteractionMove_clamped true (Pad.mkRect 100 200 128 128)
           (Pad.MouseEvent 300 264)).
  cbn [Pad.width]. lra.
Defined.

(** ** The data-URL splitter *)

Section Split.

Variable sep : ascii.

Lemma split_nonempty (s : string) : Transfer.split sep s <> [].
Proof.
  destruct s as [| c r]; cbn; [discriminate |].
  destruct (Ascii.eqb c sep); [discriminate |].
  destruct (Transfer.split sep r); discriminate.
Qed.

Lemma split_absent (s : string) :
  Transfer.occurs sep s = false -> Transfer.split sep s = [s].
Proof.
  induction s as [| c r IH]; cbn; [reflexivity |].
  intros H. apply orb_false_iff in H as [-> Hr].
  now rewrite (IH Hr).
Qed.

Lemma split_prefix (s t : string) :
  Transfer.occurs sep s = false ->
  Transfer.split sep (s ++ String sep t) = s :: Transfer.split sep t.
Proof.
  induction s as [| c r IH]; cbn.
  - intros _. now rewrite Ascii.eqb_refl.
  - intros H. apply orb_false_iff in H as [-> Hr].
    now rewrite (IH Hr).
Qed.

Lemma occurs_app (s t : string) :
  Transfer.occurs sep (s ++ t) = Transfer.occurs sep s || Transfer.occurs sep t.
Proof.
  induction s as [| c r IH]; cbn; [reflexivity |].
  now rewrite IH, orb_assoc.
Qed.

(** The first element of a split has only characters of the string. *)
Lemma split_head_occurs (c : ascii) (s : string) :
  Transfer.occurs c s = false ->
  forall h t, Transfer.split sep s = h :: t -> Transfer.occurs c h = false.
Proof.
  induction s as [| a r IH]; cbn.
  - intros _ h t E. injection E as <- _. reflexivity.
  - intros H h t E. apply orb_false_iff in H as [Ha Hr].
    destruct (Ascii.eqb a sep).
    + injection E as <- _. reflexivity.
    + destruct (Transfer.split sep r) as [| h' t'] eqn:Er.
      * injection E as <- _. cbn. now rewrite Ha.
      * injection E as <- _. cbn. rewrite Ha. cbn. now apply (IH Hr h' t').
Qed.

Lemma split_second_absent (s : string) :
  Transfer.occurs sep s = false -> nth_error (Transfer.split sep s) 1 = None.
Proof. intros H. now rewrite split_absent. Qed.

End Split.

Lemma append_assoc (s t u : string) : ((s ++ t) ++ u = s ++ (t ++ u))%string.
Proof. induction s as [| c r IH]; cbn; [reflexivity | now rewrite IH]. Qed.

Lemma lazyUntilSemicolon_prefix (m t : string) :
  Transfer.occurs ";" m = false ->
  Transfer.occurs "010" m = false -> Transfer.occurs "013" m = false ->
  Transfer.lazyUntilSemicolon (m ++ String ";" t) = Some m.
Proof.
  induction m as [| c r IH]; cbn; [reflexivity |].
  intros H1 H2 H3.
  apply orb_false_iff in H1 as [-> H1], H2 as [H2c H2], H3 as [H3c H3].
  unfold Transfer.isLineTerminator. rewrite H2c, H3c. cbn.
  now rewrite (IH H1 H2 H3).
Qed.

Lemma lazyUntilSemicolon_occurs (s m : string) :
  Transfer.lazyUntilSemicolon s = Some m -> Transfer.occurs ";" s = true.
Proof.
  revert m. induction s as [| c r IH]; cbn; [discriminate |].
  intros m. destruct (Ascii.eqb c ";"); [reflexivity |].
  destruct (Transfer.isLineTerminator c); [discriminate |].
  destruct (Transfer.lazyUntilSemicolon r) as [m' |]; [| discriminate].
  intros _. cbn. now apply (IH m').
Qed.

(** The regular expression matches only a string with a colon and a
    semicolon. *)
Lemma matchGroup1_occurs (s m : string) :
  Transfer.matchGroup1 s = Some m ->
  Transfer.occurs ":" s = true /\ Transfer.occurs ";" s = true.
Proof.
  induction s as [| c r IH]; cbn; [discriminate |].
  destruct (Ascii.eqb c ":") eqn:Ec.
  - destruct (Transfer.lazyUntilSemicolon r) as [m' |] eqn:El.
    + intros _. split; [reflexivity |].
      rewrite (lazyUntilSemicolon_occurs r m' El). apply orb_true_r.
    + intros H. destruct (IH H) as [_ Hs]. split; [reflexivity |].
      rewrite Hs. apply orb_true_r.
  - intros H. destruct (IH H) as [Hc Hs]. rewrite Hc, Hs.
    split; [reflexivity | apply orb_true_r].
Qed.

(** C6.  A data URL built from a media type and a payload splits back into
    the two. *)
Theorem dataUrlToInfo_dataUrl (mediaType bytes : string) :
  Transfer.mediaTypeOk mediaType -> Transfer.payloadOk bytes ->
  Transfer.dataUrlToInfo (Transfer.dataUrl mediaType bytes)
  = Js.Returns (Transfer.mkInfo (Some bytes) mediaType).
Proof.
  intros (Hne & Hcomma & Hsemi & Hlf & Hcr) Hb.
  unfold Transfer.dataUrlToInfo, Transfer.dataUrl.
  assert (Hs : Transfer.split ","
                 ("data:" ++ mediaType ++ ";base64," ++ bytes)
               = ["data:" ++ mediaType ++ ";base64"; bytes]).
  { replace ("data:" ++ mediaType ++ ";base64," ++ bytes)
      with (("data:" ++ mediaType ++ ";base64") ++ String "," bytes).
    - rewrite split_prefix, (split_absent _ _ Hb); [reflexivity |].
      cbn. rewrite occurs_app, Hcomma. reflexivity.
    - cbn. now rewrite append_assoc. }
  rewrite Hs. cbn [nth_error].
  assert (Hm : Transfer.matchGroup1 ("data:" ++ mediaType ++ ";base64")
               = Some mediaType).
  { cbn. now rewrite (lazyUntilSemicolon_prefix mediaType "base64"). }
  rewrite Hm. cbn. destruct mediaType; [contradiction | reflexivity].
Qed.

(** C6 at the media type image/png. *)
Lemma dataUrlToInfo_dataUrl_png :
  Transfer.dataUrlToInfo (Transfer.dataUrl "image/png" "iVBORw0KGgo=")
  = Js.Returns (Transfer.mkInfo (Some "iVBORw0KGgo=") "image/png").
Proof.
  apply (dataUrlToInfo_dataUrl "image/png" "iVBORw0KGgo=").
  - repeat split; [discriminate | reflexivity ..].
  - reflexivity.
Defined.

Lemma dataUrlToInfo_defined (dataUrl : string) :
  exists part0 rest,
    Transfer.split "," dataUrl = part0 :: rest
    /\ Transfer.dataUrlToInfo dataUrl
       = Js.Returns
           (Transfer.mkInfo (nth_error rest 0)
              (Js.or_else (Transfer.matchGroup1 part0) "application/octet-stream")).
Proof.
  unfold Transfer.dataUrlToInfo.
  destruct (Transfer.split "," dataUrl) as [| part0 rest] eqn:Es;
    [now apply split_nonempty in Es |].
  exists part0, rest. split; reflexivity.
Qed.

(** C7, as amended.  [dataUrlToInfo] returns on every string and never
    throws.  On a string without a comma the payload is undefined; on a
    string without a colon, or without a semicolon, the media type is the
    default, application/octet-stream. *)
Theorem dataUrlToInfo_returns (dataUrl : string) :
  exists info,
    Transfer.dataUrlToInfo dataUrl = Js.Returns info
    /\ (Transfer.occurs "," dataUrl = false -> Transfer.base64Data info = None)
    /\ (Transfer.occurs ":" dataUrl = false \/ Transfer.occurs ";" dataUrl = false ->
          Transfer.mimeType info = "application/octet-stream").
Proof.
  destruct (dataUrlToInfo_defined dataUrl) as (part0 & rest & Es & ->).
  eexists. split; [reflexivity |]. cbn. split.
  - intros H. apply (split_second_absent ",") in H. now rewrite Es in H.
  - intros H. destruct (Transfer.matchGroup1 part0) as [m |] eqn:Em;
      [| reflexivity].
    exfalso. apply matchGroup1_occurs in Em as [Hc Hs].
    destruct H as [H | H];
      apply (split_head_occurs "," _ _ H part0 rest) in Es; congruence.
Qed.

(** C7, as amended, at the string hello. *)
Lemma dataUrlToInfo_returns_example :
  exists info,
    Transfer.dataUrlToInfo "hello" = Js.Returns info
    /\ Transfer.base64Data info = None
    /\ Transfer.mimeType info = "application/octet-stream".
Proof.
  destruct (dataUrlToInfo_returns "hello") as (info & E & Hdata & Hmime).
  exists info. split; [exact E |]. split.
  - apply Hdata. reflexivity.
  - apply Hmime. left. reflexivity.
Defined.

(** C7, as stated, fails at the string hello, which has no media-type
    prefix and no separator: [dataUrlToInfo] returns a result, with an
    undefined payload and the default media type, and does not throw.  It
    also returns on a string with the prefix and without the separator. *)
Lemma dataUrlToInfo_malformed :
  Transfer.dataUrlToInfo "hello"
  = Js.Returns (Transfer.mkInfo None "application/octet-stream")
  /\ (forall message, Transfer.dataUrlToInfo "hello" <> Js.Throws message)
  /\ Transfer.dataUrlToInfo "data:image/png;base64"
     = Js.Returns (Transfer.mkInfo None "image/png").
Proof. repeat split. intros message. discriminate. Qed.

(** ** The application: reset *)

(** C10.  [handleReset] sets the three offsets to (0,0) and the error to
    null, whatever they were, and leaves the two images and the loading flag
    as they are; a click on the reset button leaves the pending service
    calls as they are. *)
Theorem handleReset_complete (s : App.State) :
  App.gazeOffset (App.handleReset s) = mkPoint 0 0
  /\ App.headOffset (App.handleReset s) = mkPoint 0 0
  /\ App.bodyOffset (App.handleReset s) = mkPoint 0 0
  /\ App.error (App.handleReset s) = None
  /\ App.originalImage (App.handleReset s) = App.originalImage s
  /\ App.editedImage (App.handleReset s) = App.editedImage s
  /\ App.isLoading (App.handleReset s) = App.isLoading s
  /\ forall API_KEY pending,
       App.pending (App.step API_KEY (App.mkWorld s pending) App.ClickReset)
       = pending.
Proof.
  repeat split. intros API_KEY pending. cbn.
  destruct (App.footerRendered s); reflexivity.
Qed.

(** ** The application: generation *)

(** C8.  Without an original image, [generateImage] sets the error message
    and returns: it makes no service call and leaves the images, the
    loading flag and the three offsets as they are. *)
Theorem generateImage_missing_input (API_KEY : option string) (s : App.State) :
  App.originalImage s = None ->
  let '(s', call) := App.generateImage API_KEY s in
  call = None
  /\ App.error s' = Some "Please upload an image first."
  /\ App.originalImage s' = None
  /\ App.editedImage s' = App.editedImage s
  /\ App.isLoading s' = App.isLoading s
  /\ App.gazeOffset s' = App.gazeOffset s
  /\ App.headOffset s' = App.headOffset s
  /\ App.bodyOffset s' = App.bodyOffset s.
Proof.
  intros H. unfold App.generateImage. rewrite H. cbn.
  repeat split. exact H.
Qed.

(** C8 on a state with moved pads, a previous result and no original
    image. *)
Lemma generateImage_missing_input_example :
  let s := App.mkState None (Some "data:image/png;base64,AAAA") false None
             (mkPoint 1 2) (mkPoint 3 4) (mkPoint 5 6) in
  let '(s', call) := App.generateImage (Some "key") s in
  call = None
  /\ App.error s' = Some "Please upload an image first."
  /\ App.originalImage s' = None
  /\ App.editedImage s' = App.editedImage s
  /\ App.isLoading s' = App.isLoading s
  /\ App.gazeOffset s' = App.gazeOffset s
  /\ App.headOffset s' = App.headOffset s
  /\ App.bodyOffset s' = App.bodyOffset s.
Proof.
  cbv zeta.
  apply (generateImage_missing_input (Some "key")
           (App.mkState None (Some "data:image/png;base64,AAAA") false None
              (mkPoint 1 2) (mkPoint 3 4) (mkPoint 5 6))).
  reflexivity.
Defined.

Lemma generateImage_resume_idle (r : App.Settled) (s : App.State) :
  App.isLoading (App.generateImage_resume r s) = false.
Proof.
  destruct r as [parts | message]; cbn; [| reflexivity].
  destruct (find _ parts) as [[[d |]] |]; reflexivity.
Qed.

Lemma generateImage_call (API_KEY : option string) (s : App.State) :
  match App.generateImage API_KEY s with
  | (s', Some _) => App.isLoading s' = true
  | (s', None) => App.isLoading s' = false \/ App.isLoading s' = App.isLoading s
  end.
Proof.
  unfold App.generateImage.
  destruct (negb (Js.truthy (App.originalImage s))); [right; reflexivity |].
  destruct (negb (Js.truthy API_KEY)); [left; reflexivity |].
  destruct (Transfer.dataUrlToInfo _); [reflexivity | left; reflexivity].
Qed.

Lemma step_consistent (API_KEY : option string) (w : App.World) (e : App.Event) :
  App.consistent w -> App.consistent (App.step API_KEY w e).
Proof.
  intros Hw. destruct e as [| | result | pad offset | r]; cbn [App.step].
  - destruct (App.footerRendered (App.app w)); [| exact Hw]. cbn [andb].
    unfold App.generateDisabled.
    destruct (App.isLoading (App.app w)) eqn:El; [exact Hw |]. cbn [negb].
    destruct Hw as [[Ht _] | [_ Hp]]; [congruence |].
    pose proof (generateImage_call API_KEY (App.app w)) as Hc.
    destruct (App.generateImage API_KEY (App.app w)) as [s' [c |]];
      rewrite Hp; cbn.
    + left. split; [exact Hc | now exists c].
    + right. split; [| reflexivity]. cbn [App.app]. destruct Hc; congruence.
  - destruct (App.footerRendered (App.app w)); exact Hw.
  - exact Hw.
  - destruct (App.footerRendered (App.app w)); [| exact Hw].
    destruct pad; exact Hw.
  - destruct (App.pending w) as [| c rest] eqn:Ep; [exact Hw |].
    right. cbn. split; [apply generateImage_resume_idle |].
    destruct Hw as [[_ [c' Hc']] | [_ Hp]]; congruence.
Qed.

Lemma run_consistent (API_KEY : option string) (events : list App.Event) :
  forall w, App.consistent w -> App.consistent (App.run API_KEY w events).
Proof.
  induction events as [| e events IH]; intros w Hw; [exact Hw |].
  cbn. apply IH. now apply step_consistent.
Qed.

(** C9.  In every world that the page reaches from its mount, at most one
    service call is pending, and one is pending exactly when the loading
    flag is set; in a world with the loading flag set, a click on the
    generate button changes nothing: it starts no service call. *)
Theorem single_in_flight (API_KEY : option string) (events : list App.Event) :
  let w := App.run API_KEY App.start events in
  (List.length (App.pending w) <= 1)%nat
  /\ (App.pending w <> [] <-> App.isLoading (App.app w) = true)
  /\ (App.isLoading (App.app w) = true ->
        App.generateDisabled (App.app w) = true
        /\ App.step API_KEY w App.ClickGenerate = w).
Proof.
  cbv zeta.
  assert (Hc : App.consistent (App.run API_KEY App.start events)).
  { apply run_consistent. right. split; reflexivity. }
  set (w := App.run API_KEY App.start events) in *.
  split; [| split].
  - destruct Hc as [[_ [c ->]] | [_ ->]]; cbn; lia.
  - destruct Hc as [[Ht [c ->]] | [Hf ->]]; split; intros H;
      congruence.
  - intros Hl. split; [exact Hl |]. cbn [App.step].
    unfold App.generateDisabled. rewrite Hl.
    now rewrite andb_false_r.
Qed.

(** The function itself has no guard on the loading flag: called on a state
    with an image and a key, it hands a request to the service whatever the
    flag is.  The guard is the [disabled] attribute of the button. *)
Lemma generateImage_unguarded (key image : string) (s : App.State) :
  Js.Boolean key = true -> Js.Boolean image = true ->
  App.originalImage s = Some image ->
  exists s' call, App.generateImage (Some key) s = (s', Some call).
Proof.
  intros Hk Hi Ho. unfold App.generateImage. rewrite Ho. cbn [Js.truthy].
  rewrite Hk, Hi. cbn [negb].
  destruct (dataUrlToInfo_defined image) as (part0 & rest & _ & ->).
  eexists. eexists. reflexivity.
Qed.

(** C9 on the page after a file was loaded and the generate button
    clicked: a call is in flight, and a second click leaves the world as it
    is. *)
Lemma single_in_flight_example :
  let events := [App.FileLoaded (Some "data:image/png;base64,AAAA");
                 App.ClickGenerate] in
  let w := App.run (Some "key") App.start events in
  App.isLoading (App.app w) = true
  /\ List.length (App.pending w) = 1%nat
  /\ App.step (Some "key") w App.ClickGenerate = w.
Proof.
  cbv zeta. split; [reflexivity |]. split; [reflexivity |].
  pose proof (single_in_flight (Some "key")
                [App.FileLoaded (Some "data:image/png;base64,AAAA");
                 App.ClickGenerate]) as H.
  cbv zeta in H. destruct H as (_ & _ & H). apply H. reflexivity.
Defined.

(** * Further properties *)

(** ** The composer on every input *)

Lemma append_nil_r (s : string) : (s ++ "")%string = s.
Proof. induction s as [| c r IH]; cbn; [reflexivity | now rewrite IH]. Qed.

(** A joined list starts with its first element. *)
Lemma join_head (sep p : string) (rest : list string) :
  exists tail, Js.join sep (p :: rest) = (p ++ tail)%string.
Proof.
  destruct rest as [| q rest].
  - exists "". cbn. now rewrite append_nil_r.
  - eexists. reflexivity.
Qed.

Lemma join_not_fallback (p : string) (rest : list string) :
  (exists amount dir, p = Axis.headTemplate amount dir)
  \/ (exists amount dir, p = Axis.bodyTemplate amount dir)
  \/ (exists dir, p = Axis.gazeTemplate dir) ->
  Js.join " " (p :: rest) <> Composer.fallback.
Proof.
  intros H. destruct (join_head " " p rest) as [tail ->].
  destruct H as [(a & d & ->) | [(a & d & ->) | (d & ->)]];
    cbn; discriminate.
Qed.

Lemma labelled_dec (p : Point) : Axis.labelled p \/ ~ Axis.labelled p.
Proof. destruct (direction_cases p) as [[H _] | [H _]]; tauto. Qed.

(** X1.  For every three offsets the prompt is made of the head phrase,
    the body phrase and the gaze phrase, in this order, each present exactly
    when a component of its offset is past 15, joined by single spaces; with
    the three present it is the three sentences in a row. *)
Theorem generatePrompt_order (gazeOffset headOffset bodyOffset : Point) :
  Composer.generatePrompt gazeOffset headOffset bodyOffset
  = Axis.render (Axis.toList (Axis.headPhrase headOffset)
                 ++ Axis.toList (Axis.bodyPhrase bodyOffset)
                 ++ Axis.toList (Axis.gazePhrase gazeOffset))
  /\ (Axis.labelled headOffset -> Axis.labelled bodyOffset ->
      Axis.labelled gazeOffset ->
      Composer.generatePrompt gazeOffset headOffset bodyOffset
      = (Axis.headTemplate (Axis.qualifier 64 headOffset) (Axis.direction headOffset)
         ++ " "
         ++ Axis.bodyTemplate (Axis.qualifier 80 bodyOffset) (Axis.direction bodyOffset)
         ++ " "
         ++ Axis.gazeTemplate (Axis.direction gazeOffset))%string)
  /\ (Axis.labelled headOffset -> ~ Axis.labelled bodyOffset ->
      Axis.labelled gazeOffset ->
      Composer.generatePrompt gazeOffset headOffset bodyOffset
      = (Axis.headTemplate (Axis.qualifier 64 headOffset) (Axis.direction headOffset)
         ++ " " ++ Axis.gazeTemplate (Axis.direction gazeOffset))%string).
Proof.
  split; [apply generatePrompt_phrases |]. split.
  - intros Hh Hb Hg. rewrite generatePrompt_phrases. unfold Axis.phrases.
    rewrite (headPhrase_labelled _ Hh), (bodyPhrase_labelled _ Hb),
      (gazePhrase_labelled _ Hg).
    reflexivity.
  - intros Hh Hb Hg. rewrite generatePrompt_phrases. unfold Axis.phrases.
    destruct (phrases_unlabelled _ Hb) as (_ & -> & _).
    rewrite (headPhrase_labelled _ Hh), (gazePhrase_labelled _ Hg).
    reflexivity.
Qed.

Lemma labelled_30_40 : Axis.labelled (mkPoint 30 40).
Proof. unfold Axis.labelled, Axis.threshold. cbn [x y]. lra. Qed.

(** X1 with the three pads at (30,40). *)
Lemma generatePrompt_order_example_all :
  let p := mkPoint 30 40 in
  Composer.generatePrompt p p p
  = (Axis.headTemplate (Axis.qualifier 64 p) (Axis.direction p) ++ " "
     ++ Axis.bodyTemplate (Axis.qualifier 80 p) (Axis.direction p) ++ " "
     ++ Axis.gazeTemplate (Axis.direction p))%string.
Proof.
  cbv zeta.
  apply (proj1 (proj2 (generatePrompt_order (mkPoint 30 40) (mkPoint 30 40)
                         (mkPoint 30 40))));
    exact labelled_30_40.
Defined.

(** X2.  The prompt is the fallback sentence exactly when no component of
    any of the three offsets is past 15 in absolute value. *)
Theorem generatePrompt_fallback_iff (gazeOffset headOffset bodyOffset : Point) :
  Composer.generatePrompt gazeOffset headOffset bodyOffset = Composer.fallback
  <-> ~ Axis.labelled gazeOffset /\ ~ Axis.labelled headOffset
      /\ ~ Axis.labelled bodyOffset.
Proof.
  rewrite generatePrompt_phrases. unfold Axis.phrases. split.
  - intros H.
    destruct (labelled_dec headOffset) as [Hh | Hh].
    { exfalso. rewrite (headPhrase_labelled _ Hh) in H. cbn [Axis.toList app] in H.
      revert H. apply join_not_fallback. left. eauto. }
    destruct (phrases_unlabelled _ Hh) as (Eh & _ & _). rewrite Eh in H.
    destruct (labelled_dec bodyOffset) as [Hb | Hb].
    { exfalso. rewrite (bodyPhrase_labelled _ Hb) in H. cbn [Axis.toList app] in H.
      revert H. apply join_not_fallback. right; left. eauto. }
    destruct (phrases_unlabelled _ Hb) as (_ & Eb & _). rewrite Eb in H.
    destruct (labelled_dec gazeOffset) as [Hg | Hg].
    { exfalso. rewrite (gazePhrase_labelled _ Hg) in H. cbn [Axis.toList app] in H.
      revert H. apply join_not_fallback. right; right. eauto. }
    tauto.
  - intros (Hg & Hh & Hb).
    destruct (phrases_unlabelled _ Hg) as (_ & _ & ->).
    destruct (phrases_unlabelled _ Hh) as (-> & _ & _).
    destruct (phrases_unlabelled _ Hb) as (_ & -> & _).
    reflexivity.
Qed.

(** X2 at the offsets (11,11), at a distance above 15. *)
Lemma generatePrompt_fallback_iff_example :
  Composer.generatePrompt (mkPoint 11 11) (mkPoint 11 11) (mkPoint 11 11)
  = Composer.fallback.
Proof.
  apply (proj2 (generatePrompt_fallback_iff (mkPoint 11 11) (mkPoint 11 11)
                  (mkPoint 11 11))).
  repeat split; exact corner_unlabelled.
Defined.

(** X3.  The direction label of an offset, by the position of its two
    components with respect to -15 and 15: the vertical word comes first,
    and the two words are joined by " and to the ". *)
Theorem direction_table (p : Point) :
  (y p < -15 -> x p < -15 -> Axis.direction p = "up and to the left")
  /\ (y p < -15 -> -15 <= x p <= 15 -> Axis.direction p = "up")
  /\ (y p < -15 -> 15 < x p -> Axis.direction p = "up and to the right")
  /\ (-15 <= y p <= 15 -> x p < -15 -> Axis.direction p = "left")
  /\ (-15 <= y p <= 15 -> -15 <= x p <= 15 -> Axis.direction p = "")
  /\ (-15 <= y p <= 15 -> 15 < x p -> Axis.direction p = "right")
  /\ (15 < y p -> x p < -15 -> Axis.direction p = "down and to the left")
  /\ (15 < y p -> -15 <= x p <= 15 -> Axis.direction p = "down")
  /\ (15 < y p -> 15 < x p -> Axis.direction p = "down and to the right").
Proof.
  unfold Axis.direction.
  destruct (vertical_cases p) as [[Hy ->] | [[Hy ->] | [Hy ->]]];
    destruct (horizontal_cases p) as [[Hx ->] | [[Hx ->] | [Hx ->]]];
    cbn; repeat split; intros; first [reflexivity | lra].
Qed.

(** X3 at the offset (-20,-20). *)
Lemma direction_table_example :
  Axis.direction (mkPoint (-20) (-20)) = "up and to the left".
Proof.
  apply (direction_table (mkPoint (-20) (-20))); cbn [x y]; lra.
Defined.

(** ** The pad controller on every input *)


(** The two branches of the handler of a dragged pad. *)
Lemma handleInteractionMove_branches (rect : Pad.DOMRect) (e : Pad.MoveEvent) :
  let v := Pad.raw rect e in
  let d := Pad.magnitude v in
  (Pad.radius rect < d
   /\ Pad.handleInteractionMove true (Some rect) e
      = Some (mkPoint (x v / d * Pad.radius rect) (y v / d * Pad.radius rect)))
  \/ (d <= Pad.radius rect
      /\ Pad.handleInteractionMove true (Some rect) e = Some v).
Proof.
  cbv zeta. rewrite raw_event. cbn [Pad.handleInteractionMove].
  set (dx := _ - (Pad.left rect + _)).
  set (dy := _ - (Pad.top rect + _)).
  cbv zeta. fold (Pad.radius rect). unfold Pad.magnitude. cbn [x y].
  unfold Js.gtb.
  destruct (ltb_cases (Pad.radius rect) (sqrt (dx * dx + dy * dy)))
    as [[H ->] | [H ->]]; [left | right]; split; auto.
Qed.

Lemma Some_eq {A : Type} (a b : A) : Some a = Some b -> a = b.
Proof. intros H. now injection H. Qed.


Lemma outside_example :
  Pad.radius (Pad.mkRect 100 200 128 128)
  < Pad.magnitude (Pad.raw (Pad.mkRect 100 200 128 128) (Pad.MouseEvent 300 264)).
Proof.
  unfold Pad.radius, Pad.raw, Pad.magnitude. cbn.
  replace ((300 - (100 + 128 / 2)) * (300 - (100 + 128 / 2))
           + (264 - (200 + 128 / 2)) * (264 - (200 + 128 / 2)))
    with (136 * 136) by field.
  rewrite sqrt_square; lra.
Qed.


(** The offset written on the head pad at (100,200) for the mouse at
    (300,264), outside of the pad. *)
Lemma written_example :
  let rect := Pad.mkRect 100 200 128 128 in
  let v := Pad.raw rect (Pad.MouseEvent 300 264) in
  Pad.handleInteractionMove true (Some rect) (Pad.MouseEvent 300 264)
  = Some (mkPoint (x v / Pad.magnitude v * 64) (y v / Pad.magnitude v * 64)).
Proof.
  cbv zeta.
  destruct (handleInteractionMove_branches (Pad.mkRect 100 200 128 128)
              (Pad.MouseEvent 300 264)) as [[_ E] | [H _]].
  - rewrite E. unfold Pad.radius. cbn [Pad.width].
    replace (128 / 2) with 64 by field. reflexivity.
  - pose proof outside_example. lra.
Qed.



(** ** The data-URL splitter on every input *)

Lemma split_elements (sep : ascii) (s : string) :
  forall part, In part (Transfer.split sep s) -> Transfer.occurs sep part = false.
Proof.
  induction s as [| c r IH]; cbn.
  - intros part [<- | []]. reflexivity.
  - destruct (Ascii.eqb c sep) eqn:Ec.
    + intros part [<- | H]; [reflexivity | now apply IH].
    + destruct (Transfer.split sep r) as [| h t].
      * intros part [<- | []]. cbn. now rewrite Ec.
      * intros part [<- | H].
        -- cbn. rewrite Ec. apply IH. now left.
        -- apply IH. now right.
Qed.

Lemma lazyUntilSemicolon_clean (s m : string) :
  Transfer.lazyUntilSemicolon s = Some m ->
  Transfer.occurs ";" m = false
  /\ Transfer.occurs "010" m = false /\ Transfer.occurs "013" m = false.
Proof.
  revert m. induction s as [| c r IH]; cbn; [discriminate |].
  intros m. destruct (Ascii.eqb c ";") eqn:Ec.
  - intros H. apply Some_eq in H. subst m. repeat split.
  - unfold Transfer.isLineTerminator.
    destruct (Ascii.eqb c "010") eqn:El; [discriminate |].
    destruct (Ascii.eqb c "013") eqn:Er; [discriminate |]. cbn.
    destruct (Transfer.lazyUntilSemicolon r) as [m' |]; [| discriminate].
    intros H. apply Some_eq in H. subst m.
    destruct (IH m' eq_refl) as (H1 & H2 & H3). cbn.
    now rewrite Ec, El, Er, H1, H2, H3.
Qed.

Lemma matchGroup1_clean (s m : string) :
  Transfer.matchGroup1 s = Some m ->
  Transfer.occurs ";" m = false
  /\ Transfer.occurs "010" m = false /\ Transfer.occurs "013" m = false.
Proof.
  induction s as [| c r IH]; cbn; [discriminate |].
  destruct (Ascii.eqb c ":"); [| exact IH].
  destruct (Transfer.lazyUntilSemicolon r) as [m' |] eqn:El; [| exact IH].
  intros H. apply Some_eq in H. subst m'. now apply (lazyUntilSemicolon_clean r).
Qed.

Lemma matchGroup1_absent (s : string) :
  Transfer.occurs ":" s = false \/ Transfer.occurs ";" s = false ->
  Transfer.matchGroup1 s = None.
Proof.
  intros H. destruct (Transfer.matchGroup1 s) as [m |] eqn:E; [| reflexivity].
  apply matchGroup1_occurs in E as [Hc Hs]. destruct H; congruence.
Qed.

(** The parts of a string with a comma-free prefix, a comma, a comma-free
    payload and, possibly, a comma and more. *)
Lemma split_payload (prefix bytes : string) (more : option string) :
  Transfer.occurs "," prefix = false -> Transfer.occurs "," bytes = false ->
  exists rest,
    Transfer.split ","
      (prefix ++ String "," (bytes ++ match more with
                                      | Some t => String "," t
                                      | None => ""
                                      end))
    = prefix :: bytes :: rest.
Proof.
  intros Hp Hb. rewrite (split_prefix _ _ _ Hp). destruct more as [t |].
  - rewrite (split_prefix _ _ _ Hb). eexists. reflexivity.
  - rewrite append_nil_r, (split_absent _ _ Hb). eexists. reflexivity.
Qed.

Lemma dataUrlToInfo_payload (prefix bytes : string) (more : option string) :
  Transfer.occurs "," prefix = false -> Transfer.occurs "," bytes = false ->
  Transfer.dataUrlToInfo
    (prefix ++ String "," (bytes ++ match more with
                                    | Some t => String "," t
                                    | None => ""
                                    end))
  = Js.Returns
      (Transfer.mkInfo (Some bytes)
         (Js.or_else (Transfer.matchGroup1 prefix) "application/octet-stream")).
Proof.
  intros Hp Hb. unfold Transfer.dataUrlToInfo.
  destruct (split_payload prefix bytes more Hp Hb) as [rest ->]. reflexivity.
Qed.

Lemma matchGroup1_parameters (mediaType params : string) :
  Transfer.occurs ";" mediaType = false ->
  Transfer.occurs "010" mediaType = false ->
  Transfer.occurs "013" mediaType = false ->
  Transfer.matchGroup1 ("data:" ++ mediaType ++ String ";" params) = Some mediaType.
Proof.
  intros H1 H2 H3. cbn. now rewrite lazyUntilSemicolon_prefix.
Qed.

(** X6.  Whatever the string, the media type that [dataUrlToInfo] returns
    is not empty and has no semicolon and no line terminator, and the
    payload, when there is one, has no comma. *)
Theorem dataUrlToInfo_clean (dataUrl : string) (info : Transfer.Info) :
  Transfer.dataUrlToInfo dataUrl = Js.Returns info ->
  Transfer.mimeType info <> ""
  /\ Transfer.occurs ";" (Transfer.mimeType info) = false
  /\ Transfer.occurs "010" (Transfer.mimeType info) = false
  /\ Transfer.occurs "013" (Transfer.mimeType info) = false
  /\ forall bytes, Transfer.base64Data info = Some bytes ->
                   Transfer.occurs "," bytes = false.
Proof.
  destruct (dataUrlToInfo_defined dataUrl) as (part0 & rest & Es & ->).
  intros H. injection H as <-. cbn [Transfer.mimeType Transfer.base64Data].
  assert (Hm : let m := Js.or_else (Transfer.matchGroup1 part0)
                          "application/octet-stream" in
               m <> "" /\ Transfer.occurs ";" m = false
               /\ Transfer.occurs "010" m = false /\ Transfer.occurs "013" m = false).
  { cbv zeta. destruct (Transfer.matchGroup1 part0) as [m |] eqn:Em; cbn.
    - destruct m as [| c r]; cbn [Js.Boolean];
        [repeat split; discriminate |].
      destruct (matchGroup1_clean _ _ Em) as (H1 & H2 & H3).
      repeat split; try assumption. discriminate.
    - repeat split. discriminate. }
  cbv zeta in Hm. destruct Hm as (H0 & H1 & H2 & H3).
  repeat split; try assumption.
  intros bytes Hb. apply (split_elements "," dataUrl). rewrite Es.
  right. destruct rest as [| b rest']; [discriminate |].
  cbn in Hb. apply Some_eq in Hb. subst b. now left.
Qed.

(** X6 at a string with two commas and a parameter. *)
Lemma dataUrlToInfo_clean_example :
  let info := Transfer.mkInfo (Some "AAAA") "image/png" in
  Transfer.mimeType info <> ""
  /\ Transfer.occurs ";" (Transfer.mimeType info) = false
  /\ Transfer.occurs "010" (Transfer.mimeType info) = false
  /\ Transfer.occurs "013" (Transfer.mimeType info) = false
  /\ forall bytes, Transfer.base64Data info = Some bytes ->
                   Transfer.occurs "," bytes = false.
Proof.
  cbv zeta.
  apply (dataUrlToInfo_clean "data:image/png;name=a;base64,AAAA,BBBB").
  reflexivity.
Defined.

(** X7.  The media type is the text between "data:" and the first
    semicolon, and the payload the text between the first comma and the
    second, if any: parameters that follow the media type and whatever
    follows a second comma are dropped. *)
Theorem dataUrlToInfo_parameters (mediaType params bytes : string) :
  Transfer.mediaTypeOk mediaType ->
  Transfer.occurs "," params = false ->
  Transfer.payloadOk bytes ->
  Transfer.dataUrlToInfo ("data:" ++ mediaType ++ ";" ++ params ++ "," ++ bytes)
  = Js.Returns (Transfer.mkInfo (Some bytes) mediaType)
  /\ forall more,
       Transfer.dataUrlToInfo
         ("data:" ++ mediaType ++ ";" ++ params ++ "," ++ bytes ++ "," ++ more)
       = Js.Returns (Transfer.mkInfo (Some bytes) mediaType).
Proof.
  intros (Hne & Hcomma & Hsemi & Hlf & Hcr) Hp Hb.
  assert (Hprefix : Transfer.occurs ","
                      ("data:" ++ mediaType ++ String ";" params) = false).
  { cbn. now rewrite occurs_app, Hcomma; cbn; rewrite Hp. }
  assert (Hmime : Js.or_else
                    (Transfer.matchGroup1 ("data:" ++ mediaType ++ String ";" params))
                    "application/octet-stream" = mediaType).
  { rewrite matchGroup1_parameters by assumption. cbn.
    destruct mediaType; [contradiction | reflexivity]. }
  split; [| intros more].
  - pose proof (dataUrlToInfo_payload _ bytes None Hprefix Hb) as H.
    rewrite Hmime, append_nil_r in H. rewrite <- H. f_equal.
    cbn. f_equal. now rewrite !append_assoc.
  - pose proof (dataUrlToInfo_payload _ bytes (Some more) Hprefix Hb) as H.
    rewrite Hmime in H. rewrite <- H. f_equal.
    cbn. f_equal. now rewrite !append_assoc.
Qed.

(** X7 at an SVG data URL with a charset parameter. *)
Lemma dataUrlToInfo_parameters_example :
  Transfer.dataUrlToInfo "data:image/svg+xml;charset=utf-8;base64,PHN2Zz4="
  = Js.Returns (Transfer.mkInfo (Some "PHN2Zz4=") "image/svg+xml").
Proof.
  apply (dataUrlToInfo_parameters "image/svg+xml" "charset=utf-8;base64" "PHN2Zz4=").
  - repeat split; [discriminate | reflexivity ..].
  - reflexivity.
  - reflexivity.
Defined.

(** X8.  A string whose part before the first comma has no colon, or no
    semicolon, and a data URL with an empty media type, give the default
    media type application/octet-stream; the payload is still returned. *)
Theorem dataUrlToInfo_default (prefix bytes : string) :
  Transfer.occurs "," prefix = false ->
  Transfer.payloadOk bytes ->
  (Transfer.occurs ":" prefix = false \/ Transfer.occurs ";" prefix = false ->
   Transfer.dataUrlToInfo (prefix ++ "," ++ bytes)
   = Js.Returns (Transfer.mkInfo (Some bytes) "application/octet-stream"))
  /\ Transfer.dataUrlToInfo (Transfer.dataUrl "" bytes)
     = Js.Returns (Transfer.mkInfo (Some bytes) "application/octet-stream").
Proof.
  intros Hp Hb. split.
  - intros H.
    pose proof (dataUrlToInfo_payload prefix bytes None Hp Hb) as E.
    rewrite (matchGroup1_absent prefix H), append_nil_r in E. exact E.
  - pose proof (dataUrlToInfo_payload "data:;base64" bytes None eq_refl Hb) as E.
    rewrite append_nil_r in E. exact E.
Qed.

(** X8 at a bare base64 prefix. *)
Lemma dataUrlToInfo_default_example :
  Transfer.dataUrlToInfo "base64,AAAA"
  = Js.Returns (Transfer.mkInfo (Some "AAAA") "application/octet-stream").
Proof.
  apply (proj1 (dataUrlToInfo_default "base64" "AAAA" eq_refl eq_refl)).
  left. reflexivity.
Defined.

(** ** Generation: the steps of [generateImage] *)

Lemma dataUrlToInfo_dataUrl_parts (mediaType bytes : string) :
  Transfer.mediaTypeOk mediaType -> Transfer.payloadOk bytes ->
  Transfer.dataUrlToInfo (Transfer.dataUrl mediaType bytes)
  = Js.Returns (Transfer.mkInfo (Some bytes) mediaType).
Proof.
  intros (Hne & Hcomma & Hsemi & Hlf & Hcr) Hb.
  assert (Hprefix : Transfer.occurs ","
                      ("data:" ++ mediaType ++ String ";" "base64") = false).
  { cbn. now rewrite occurs_app, Hcomma. }
  pose proof (dataUrlToInfo_payload _ bytes None Hprefix Hb) as H.
  rewrite matchGroup1_parameters, append_nil_r in H by assumption.
  assert (Hmime : Js.or_else (Some mediaType) "application/octet-stream"
                  = mediaType)
    by (destruct mediaType; [contradiction | reflexivity]).
  rewrite Hmime in H. unfold Transfer.dataUrl. rewrite <- H. f_equal.
  cbn. f_equal. now rewrite !append_assoc.
Qed.

Lemma Returns_eq {A : Type} (a b : A) : Js.Returns a = Js.Returns b -> a = b.
Proof. intros H. now injection H. Qed.

(** X9.  With an image and without an API key, [generateImage] makes no
    service call: it reports that the key is not set, clears the edited
    image, and leaves the loading flag unset. *)
Theorem generateImage_missing_key
    (API_KEY : option string) (image : string) (s : App.State) :
  App.originalImage s = Some image -> Js.Boolean image = true ->
  Js.truthy API_KEY = false ->
  let '(s', call) := App.generateImage API_KEY s in
  call = None
  /\ App.error s' = Some "API_KEY is not set in environment variables."
  /\ App.isLoading s' = false
  /\ App.editedImage s' = None
  /\ App.originalImage s' = Some image
  /\ App.gazeOffset s' = App.gazeOffset s
  /\ App.headOffset s' = App.headOffset s
  /\ App.bodyOffset s' = App.bodyOffset s.
Proof.
  intros Ho Hi Hk. unfold App.generateImage. rewrite Ho. cbn [Js.truthy].
  rewrite Hi, Hk. cbn. repeat split. exact Ho.
Qed.

(** X9 with an empty key and a previous result. *)
Lemma generateImage_missing_key_example :
  let s := App.mkState (Some "data:image/png;base64,AAAA")
             (Some "data:image/png;base64,BBBB") false None
             (mkPoint 1 2) (mkPoint 3 4) (mkPoint 5 6) in
  let '(s', call) := App.generateImage (Some "") s in
  call = None
  /\ App.error s' = Some "API_KEY is not set in environment variables."
  /\ App.isLoading s' = false
  /\ App.editedImage s' = None
  /\ App.originalImage s' = Some "data:image/png;base64,AAAA"
  /\ App.gazeOffset s' = App.gazeOffset s
  /\ App.headOffset s' = App.headOffset s
  /\ App.bodyOffset s' = App.bodyOffset s.
Proof.
  cbv zeta.
  apply (generateImage_missing_key (Some "") "data:image/png;base64,AAAA"
           (App.mkState (Some "data:image/png;base64,AAAA")
              (Some "data:image/png;base64,BBBB") false None
              (mkPoint 1 2) (mkPoint 3 4) (mkPoint 5 6)));
    reflexivity.
Defined.

(** X10.  With an image and an API key, [generateImage] sets the loading
    flag, clears the error and the edited image, and hands one request to
    the service: the payload and the media type that [dataUrlToInfo] reads
    from the original image, and the prompt of the three offsets.  For an
    original image that is a data URL, these are its payload and its media
    type. *)
Theorem generateImage_request (key image : string) (s : App.State) :
  App.originalImage s = Some image -> Js.Boolean image = true ->
  Js.Boolean key = true ->
  exists info,
    Transfer.dataUrlToInfo image = Js.Returns info
    /\ App.generateImage (Some key) s
       = (App.mkState (Some image) None true None
            (App.gazeOffset s) (App.headOffset s) (App.bodyOffset s),
          Some (App.mkRequest (Transfer.base64Data info) (Transfer.mimeType info)
                  (Composer.generatePrompt (App.gazeOffset s) (App.headOffset s)
                     (App.bodyOffset s))))
    /\ forall mediaType bytes,
         image = Transfer.dataUrl mediaType bytes ->
         Transfer.mediaTypeOk mediaType -> Transfer.payloadOk bytes ->
         Transfer.base64Data info = Some bytes
         /\ Transfer.mimeType info = mediaType.
Proof.
  intros Ho Hi Hk.
  destruct (dataUrlToInfo_defined image) as (part0 & rest & _ & E).
  eexists. split; [exact E |]. split.
  - unfold App.generateImage. rewrite Ho. cbn [Js.truthy].
    rewrite Hi, Hk. cbn [negb]. rewrite E.
    unfold App.generatePrompt, App.setEditedImage, App.setError, App.setIsLoading.
    cbn. now rewrite Ho.
  - intros mediaType bytes -> Hm Hb.
    rewrite (dataUrlToInfo_dataUrl_parts _ _ Hm Hb) in E.
    apply Returns_eq in E. rewrite <- E. split; reflexivity.
Qed.

(** X10 for a PNG data URL. *)
Lemma generateImage_request_example :
  exists info,
    Transfer.dataUrlToInfo "data:image/png;base64,AAAA" = Js.Returns info
    /\ Transfer.base64Data info = Some "AAAA"
    /\ Transfer.mimeType info = "image/png".
Proof.
  destruct (generateImage_request "key" "data:image/png;base64,AAAA"
              (App.mkState (Some "data:image/png;base64,AAAA") None false None
                 App.origin App.origin App.origin)
              eq_refl eq_refl eq_refl) as (info & E & _ & H).
  exists info. split; [exact E |].
  apply (H "image/png" "AAAA"); [reflexivity | | reflexivity].
  repeat split; [discriminate | reflexivity ..].
Defined.

Lemma find_inline (texts rest : list App.Part) (d : App.InlineData) :
  (forall part, In part texts -> App.inlineData part = None) ->
  find (fun part => match App.inlineData part with
                    | Some _ => true | None => false end)
       (texts ++ App.mkPart (Some d) :: rest)
  = Some (App.mkPart (Some d)).
Proof.
  induction texts as [| t texts IH]; intros H; cbn; [reflexivity |].
  rewrite (H t) by now left. apply IH. intros part Hp. apply H. now right.
Qed.

Lemma find_no_inline (parts : list App.Part) :
  (forall part, In part parts -> App.inlineData part = None) ->
  find (fun part => match App.inlineData part with
                    | Some _ => true | None => false end) parts = None.
Proof.
  induction parts as [| t parts IH]; intros H; cbn; [reflexivity |].
  rewrite (H t) by now left. apply IH. intros part Hp. apply H. now right.
Qed.

(** X11.  When the call resolves, the first part of the response that
    carries inline data becomes the edited image, as a data URL of its
    media type and data; parts without inline data before it are skipped
    and what follows it is ignored.  The loading flag is cleared, and the
    error, the original image and the offsets stay as they are.  When the
    media type and the data are well formed, the edited image splits back
    into them. *)
Theorem generateImage_resume_image
    (texts rest : list App.Part) (d : App.InlineData) (s : App.State) :
  (forall part, In part texts -> App.inlineData part = None) ->
  let s' := App.generateImage_resume
              (App.Resolved (texts ++ App.mkPart (Some d) :: rest)) s in
  App.editedImage s'
  = Some ("data:" ++ App.interpolate (App.inlineMimeType d) ++ ";base64,"
            ++ App.interpolate (App.data d))
  /\ App.isLoading s' = false
  /\ App.error s' = App.error s
  /\ App.originalImage s' = App.originalImage s
  /\ App.gazeOffset s' = App.gazeOffset s
  /\ App.headOffset s' = App.headOffset s
  /\ App.bodyOffset s' = App.bodyOffset s
  /\ forall mediaType bytes,
       App.inlineMimeType d = Some mediaType -> App.data d = Some bytes ->
       Transfer.mediaTypeOk mediaType -> Transfer.payloadOk bytes ->
       exists url,
         App.editedImage s' = Some url
         /\ Transfer.dataUrlToInfo url
            = Js.Returns (Transfer.mkInfo (Some bytes) mediaType).
Proof.
  intros H. cbv zeta. unfold App.generateImage_resume.
  rewrite (find_inline texts rest d H). cbn. repeat split.
  intros mediaType bytes -> -> Hm Hb. eexists. split; [reflexivity |].
  now apply dataUrlToInfo_dataUrl_parts.
Qed.

(** X11 for a response with a text part followed by an image part. *)
Lemma generateImage_resume_image_example :
  let d := App.mkInlineData (Some "AAAA") (Some "image/png") in
  let s' := App.generateImage_resume
              (App.Resolved ([App.mkPart None] ++ App.mkPart (Some d) :: []))
              App.initial in
  App.editedImage s' = Some "data:image/png;base64,AAAA".
Proof.
  cbv zeta.
  apply (generateImage_resume_image [App.mkPart None] []
           (App.mkInlineData (Some "AAAA") (Some "image/png")) App.initial).
  intros part [<- | []]. reflexivity.
Defined.

(** X12.  When the call fails, the error is set, the loading flag is cleared
    and the edited image stays as it is: a response without a part that
    carries inline data gives the message that no image was generated; a
    rejection gives its own message, or the generic message when it has
    none or an empty one. *)
Theorem generateImage_resume_failure (s : App.State) :
  (forall parts,
     (forall part, In part parts -> App.inlineData part = None) ->
     let s' := App.generateImage_resume (App.Resolved parts) s in
     App.error s'
     = Some "No image was generated. The response may have been blocked."
     /\ App.isLoading s' = false /\ App.editedImage s' = App.editedImage s)
  /\ (forall message, Js.Boolean message = true ->
        let s' := App.generateImage_resume (App.Rejected (Some message)) s in
        App.error s' = Some message
        /\ App.isLoading s' = false /\ App.editedImage s' = App.editedImage s)
  /\ (forall message, message = None \/ message = Some "" ->
        let s' := App.generateImage_resume (App.Rejected message) s in
        App.error s' = Some "An unexpected error occurred."
        /\ App.isLoading s' = false /\ App.editedImage s' = App.editedImage s).
Proof.
  split; [| split].
  - intros parts H. cbv zeta. unfold App.generateImage_resume.
    rewrite (find_no_inline parts H). repeat split.
  - intros message H. cbn. rewrite H. repeat split.
  - intros message [-> | ->]; repeat split.
Qed.

(** X12 for an empty response, a rejection with a message and one without. *)
Lemma generateImage_resume_failure_example :
  App.error (App.generateImage_resume (App.Resolved []) App.initial)
  = Some "No image was generated. The response may have been blocked."
  /\ App.error (App.generateImage_resume (App.Rejected (Some "quota")) App.initial)
     = Some "quota"
  /\ App.error (App.generateImage_resume (App.Rejected None) App.initial)
     = Some "An unexpected error occurred.".
Proof.
  destruct (generateImage_resume_failure App.initial) as (H1 & H2 & H3).
  split; [| split].
  - apply (H1 []). intros part [].
  - apply (H2 "quota"). reflexivity.
  - apply (H3 None). now left.
Defined.

(** ** The event loop of the application *)

Lemma run_app (API_KEY : option string) (w : App.World) (l1 l2 : list App.Event) :
  App.run API_KEY w (l1 ++ l2) = App.run API_KEY (App.run API_KEY w l1) l2.
Proof. apply fold_left_app. Qed.

Lemma generateImage_frame (API_KEY : option string) (s : App.State) :
  let s' := fst (App.generateImage API_KEY s) in
  App.originalImage s' = App.originalImage s
  /\ App.gazeOffset s' = App.gazeOffset s
  /\ App.headOffset s' = App.headOffset s
  /\ App.bodyOffset s' = App.bodyOffset s.
Proof.
  cbv zeta. unfold App.generateImage.
  destruct (negb (Js.truthy (App.originalImage s))); [repeat split |].
  destruct (negb (Js.truthy API_KEY)); [repeat split |].
  destruct (Transfer.dataUrlToInfo _); repeat split.
Qed.

Lemma generateImage_resume_frame (r : App.Settled) (s : App.State) :
  let s' := App.generateImage_resume r s in
  App.originalImage s' = App.originalImage s
  /\ App.gazeOffset s' = App.gazeOffset s
  /\ App.headOffset s' = App.headOffset s
  /\ App.bodyOffset s' = App.bodyOffset s.
Proof.
  cbv zeta. destruct r as [parts | message]; cbn; [| repeat split].
  destruct (find _ parts) as [[[d |]] |]; repeat split.
Qed.


(** X13.  A generation never moves a pad and never replaces the original
    image: a click on the generate button and the settling of the service
    call leave the original image and the three offsets as they are. *)
Theorem generation_frame (API_KEY : option string) (w : App.World) (e : App.Event) :
  e = App.ClickGenerate \/ (exists r, e = App.ServiceSettled r) ->
  let s := App.app w in
  let s' := App.app (App.step API_KEY w e) in
  App.originalImage s' = App.originalImage s
  /\ App.gazeOffset s' = App.gazeOffset s
  /\ App.headOffset s' = App.headOffset s
  /\ App.bodyOffset s' = App.bodyOffset s.
Proof.
  intros [-> | [r ->]]; cbv zeta; cbn [App.step].
  - destruct (App.footerRendered (App.app w) && negb (App.generateDisabled (App.app w)));
      [| repeat split].
    pose proof (generateImage_frame API_KEY (App.app w)) as H. cbv zeta in H.
    destruct (App.generateImage API_KEY (App.app w)) as [s' call]. exact H.
  - destruct (App.pending w) as [| c rest]; [repeat split |].
    apply generateImage_resume_frame.
Qed.

(** X13 for a click on the page with an image and moved pads. *)
Lemma generation_frame_example :
  let s := App.mkState (Some "data:image/png;base64,AAAA") None false None
             (mkPoint 1 2) (mkPoint 3 4) (mkPoint 5 6) in
  let s' := App.app (App.step (Some "key") (App.mkWorld s []) App.ClickGenerate) in
  App.originalImage s' = App.originalImage s
  /\ App.gazeOffset s' = App.gazeOffset s
  /\ App.headOffset s' = App.headOffset s
  /\ App.bodyOffset s' = App.bodyOffset s.
Proof.
  cbv zeta.
  apply (generation_frame (Some "key")
           (App.mkWorld
              (App.mkState (Some "data:image/png;base64,AAAA") None false None
                 (mkPoint 1 2) (mkPoint 3 4) (mkPoint 5 6)) [])
           App.ClickGenerate).
  left. reflexivity.
Defined.

(** X14.  Whatever happened before and however the call settles, once the
    service call has settled nothing is in flight: the loading flag is
    cleared, no call is pending and the generate button is enabled. *)
Theorem settled_idle
    (API_KEY : option string) (events : list App.Event) (r : App.Settled) :
  let w := App.run API_KEY App.start (events ++ [App.ServiceSettled r]) in
  App.isLoading (App.app w) = false
  /\ App.pending w = []
  /\ App.generateDisabled (App.app w) = false.
Proof.
  cbv zeta. rewrite run_app.
  assert (Hc : App.consistent (App.run API_KEY App.start events)).
  { apply run_consistent. right. split; reflexivity. }
  set (w := App.run API_KEY App.start events) in *.
  cbn [App.run fold_left App.step]. unfold App.generateDisabled.
  destruct Hc as [[_ [c Hp]] | [Hl Hp]]; rewrite Hp.
  - cbn [App.app App.pending].
    rewrite generateImage_resume_idle. repeat split.
  - rewrite Hl, Hp. repeat split.
Qed.

(** While a call is in flight the page shows neither an edited image nor an
    error. *)
Lemma run_quiet (API_KEY : option string) (events : list App.Event) :
  forall w,
    (App.isLoading (App.app w) = true ->
     App.editedImage (App.app w) = None /\ App.error (App.app w) = None) ->
    let w' := App.run API_KEY w events in
    App.isLoading (App.app w') = true ->
    App.editedImage (App.app w') = None /\ App.error (App.app w') = None.
Proof.
  induction events as [| e events IH]; intros w Hw; [exact Hw |].
  cbn [App.run fold_left]. apply IH. clear IH.
  destruct e as [| | result | pad offset | r]; cbn [App.step].
  - destruct (App.footerRendered (App.app w) && negb (App.generateDisabled (App.app w)))
      eqn:Eg; [| exact Hw].
    apply andb_true_iff in Eg as [_ El]. unfold App.generateDisabled in El.
    apply negb_true_iff in El.
    unfold App.generateImage.
    destruct (negb (Js.truthy (App.originalImage (App.app w)))).
    { cbn. intros H. congruence. }
    destruct (negb (Js.truthy API_KEY)); [cbn; discriminate |].
    destruct (Transfer.dataUrlToInfo _); cbn; [split; reflexivity | discriminate].
  - destruct (App.footerRendered (App.app w)); [| exact Hw].
    cbn. intros H. destruct (Hw H) as [He _]. split; [exact He | reflexivity].
  - cbn. intros _. split; reflexivity.
  - destruct (App.footerRendered (App.app w)); [| exact Hw].
    destruct pad; exact Hw.
  - destruct (App.pending w) as [| c rest]; [exact Hw |].
    cbn [App.app]. rewrite generateImage_resume_idle. discriminate.
Qed.

(** X15.  When a call that is in flight settles, the page shows either an
    edited image and no error, or an error and no edited image: a failed
    generation never leaves an image on display. *)
Theorem settled_result_or_error
    (API_KEY : option string) (events : list App.Event) (r : App.Settled) :
  let w := App.run API_KEY App.start events in
  App.pending w <> [] ->
  let s' := App.app (App.step API_KEY w (App.ServiceSettled r)) in
  (exists url, App.editedImage s' = Some url /\ App.error s' = None)
  \/ (App.editedImage s' = None /\ exists message, App.error s' = Some message).
Proof.
  cbv zeta. intros Hp.
  assert (Hc : App.consistent (App.run API_KEY App.start events)).
  { apply run_consistent. right. split; reflexivity. }
  assert (Hq : App.isLoading (App.app (App.run API_KEY App.start events)) = true ->
               App.editedImage (App.app (App.run API_KEY App.start events)) = None
               /\ App.error (App.app (App.run API_KEY App.start events)) = None).
  { apply (run_quiet API_KEY events App.start). discriminate. }
  set (w := App.run API_KEY App.start events) in *.
  destruct Hc as [[Hl _] | [_ Hn]]; [| contradiction].
  destruct (Hq Hl) as [He Hr].
  cbn [App.step]. destruct (App.pending w) as [| c rest]; [contradiction |].
  cbn [App.app]. destruct r as [parts | message]; cbn.
  - destruct (find _ parts) as [[[d |]] |]; cbn.
    + left. eexists. split; [reflexivity | exact Hr].
    + right. split; [exact He | eexists; reflexivity].
    + right. split; [exact He | eexists; reflexivity].
  - right. split; [exact He | eexists; reflexivity].
Qed.

(** X15 after a file was loaded and the button clicked, for a rejected
    call. *)
Lemma settled_result_or_error_example :
  let w := App.run (Some "key") App.start
             [App.FileLoaded (Some "data:image/png;base64,AAAA");
              App.ClickGenerate] in
  let s' := App.app (App.step (Some "key") w
                       (App.ServiceSettled (App.Rejected (Some "quota")))) in
  (exists url, App.editedImage s' = Some url /\ App.error s' = None)
  \/ (App.editedImage s' = None /\ exists message, App.error s' = Some message).
Proof.
  cbv zeta.
  apply (settled_result_or_error (Some "key")
           [App.FileLoaded (Some "data:image/png;base64,AAAA"); App.ClickGenerate]
           (App.Rejected (Some "quota"))).
  discriminate.
Defined.

(** X16.  After a reset, and after a file was loaded, the prompt is the
    fallback sentence; on a page with an image and a key where nothing is
    in flight, a click on reset followed by a click on generate sends
    exactly one request, whose text is the fallback sentence. *)
Theorem reset_prompt (s : App.State) :
  App.generatePrompt (App.handleReset s) = Composer.fallback
  /\ (forall result, App.generatePrompt (App.onloadend result s) = Composer.fallback)
  /\ (forall key image pending,
        App.originalImage s = Some image -> Js.Boolean image = true ->
        Js.Boolean key = true -> App.isLoading s = false ->
        exists data mimeType,
          App.pending (App.run (Some key) (App.mkWorld s pending)
                         [App.ClickReset; App.ClickGenerate])
          = (pending ++ [App.mkRequest data mimeType Composer.fallback])%list).
Proof.
  assert (Ho : Composer.generatePrompt App.origin App.origin App.origin
               = Composer.fallback).
  { rewrite generatePrompt_phrases. unfold Axis.phrases.
    destruct phrases_origin as (-> & -> & ->). reflexivity. }
  split; [exact Ho |]. split; [intros result; exact Ho |].
  intros key image pending Hi Hb Hk Hl.
  destruct (dataUrlToInfo_defined image) as (part0 & rest & _ & E).
  destruct s as [o ed l er g h b]. cbn in Hi, Hl. subst o l.
  eexists. eexists. cbn [App.run fold_left]. unfold App.step at 2.
  unfold App.footerRendered. cbn. rewrite Hb.
  unfold App.footerRendered, App.generateDisabled, App.generateImage. cbn.
  rewrite Hb, Hk. cbn. rewrite E. cbn.
  unfold App.generatePrompt. cbn. fold App.origin. rewrite Ho. reflexivity.
Qed.

(** X16 on a page with moved pads. *)
Lemma reset_prompt_example :
  exists data mimeType,
    App.pending
      (App.run (Some "key")
         (App.mkWorld
            (App.mkState (Some "data:image/png;base64,AAAA") None false None
               (mkPoint 30 40) (mkPoint 30 40) (mkPoint 30 40)) [])
         [App.ClickReset; App.ClickGenerate])
    = [App.mkRequest data mimeType Composer.fallback].
Proof.
  destruct (reset_prompt
              (App.mkState (Some "data:image/png;base64,AAAA") None false None
                 (mkPoint 30 40) (mkPoint 30 40) (mkPoint 30 40)))
    as (_ & _ & H).
  apply (H "key" "data:image/png;base64,AAAA" []); reflexivity.
Defined.

(** ** The page: pads and application together *)












Lemma movePad_idle
    (API_KEY : option string) (d : Page.Dragging)
    (padRef : App.PadId -> option Pad.DOMRect) (e : Pad.MoveEvent)
    (w : App.World) (pad : App.PadId) :
  Page.isDragging d pad = false -> Page.movePad API_KEY d padRef e w pad = w.
Proof. intros H. unfold Page.movePad. now rewrite H. Qed.

(** X18.  A release ends every drag and leaves the handles where they are:
    it changes nothing of the application, and the moves that follow it
    have no effect. *)
Theorem release_freezes
    (API_KEY : option string) (w : Page.World)
    (padRef : App.PadId -> option Pad.DOMRect) (e : Pad.MoveEvent) :
  Page.shell (Page.step API_KEY w Page.WindowRelease) = Page.shell w
  /\ Page.step API_KEY (Page.step API_KEY w Page.WindowRelease)
       (Page.WindowMove padRef e)
     = Page.step API_KEY w Page.WindowRelease.
Proof.
  split; [reflexivity |].
  cbn [Page.step Page.shell Page.dragging fold_left].
  now rewrite !movePad_idle.
Qed.

Lemma movePad_other
    (API_KEY : option string) (d : Page.Dragging)
    (padRef : App.PadId -> option Pad.DOMRect) (e : Pad.MoveEvent)
    (w : App.World) (pad pad' : App.PadId) :
  pad <> pad' ->
  Page.offset pad (App.app (Page.movePad API_KEY d padRef e w pad'))
  = Page.offset pad (App.app w).
Proof.
  intros Hne. unfold Page.movePad.
  destruct (Page.isDragging d pad'); [| reflexivity].
  destruct (Pad.handleInteractionMove true (padRef pad') e) as [p |];
    [| reflexivity].
  cbn [App.step]. destruct (App.footerRendered (App.app w)); [| reflexivity].
  destruct pad, pad'; try reflexivity; contradiction.
Qed.

Lemma movePad_shell
    (API_KEY : option string) (d : Page.Dragging)
    (padRef : App.PadId -> option Pad.DOMRect) (e : Pad.MoveEvent)
    (w : App.World) (pad : App.PadId) :
  let w' := Page.movePad API_KEY d padRef e w pad in
  App.pending w' = App.pending w
  /\ App.originalImage (App.app w') = App.originalImage (App.app w)
  /\ App.editedImage (App.app w') = App.editedImage (App.app w)
  /\ App.isLoading (App.app w') = App.isLoading (App.app w)
  /\ App.error (App.app w') = App.error (App.app w).
Proof.
  cbv zeta. unfold Page.movePad.
  destruct (Page.isDragging d pad); [| repeat split].
  destruct (Pad.handleInteractionMove true (padRef pad) e) as [p |];
    [| repeat split].
  cbn [App.step]. destruct (App.footerRendered (App.app w)); [| repeat split].
  destruct pad; repeat split.
Qed.

(** X19.  A move in the window changes only the offsets of the pads that
    are dragged: the offset of a pad that is not dragged, the two images,
    the loading flag, the error and the pending calls stay as they are. *)
Theorem move_only_dragged
    (API_KEY : option string) (w : Page.World)
    (padRef : App.PadId -> option Pad.DOMRect) (e : Pad.MoveEvent)
    (pad : App.PadId) :
  Page.isDragging (Page.dragging w) pad = false ->
  let w' := Page.step API_KEY w (Page.WindowMove padRef e) in
  Page.offset pad (App.app (Page.shell w')) = Page.offset pad (App.app (Page.shell w))
  /\ Page.dragging w' = Page.dragging w
  /\ App.pending (Page.shell w') = App.pending (Page.shell w)
  /\ App.originalImage (App.app (Page.shell w'))
     = App.originalImage (App.app (Page.shell w))
  /\ App.editedImage (App.app (Page.shell w'))
     = App.editedImage (App.app (Page.shell w))
  /\ App.isLoading (App.app (Page.shell w'))
     = App.isLoading (App.app (Page.shell w))
  /\ App.error (App.app (Page.shell w')) = App.error (App.app (Page.shell w)).
Proof.
  intros Hd. cbv zeta. cbn [Page.step Page.shell Page.dragging fold_left].
  set (d := Page.dragging w) in *.
  set (w1 := Page.movePad API_KEY d padRef e (Page.shell w) App.GazePad).
  set (w2 := Page.movePad API_KEY d padRef e w1 App.HeadPad).
  set (w3 := Page.movePad API_KEY d padRef e w2 App.BodyPad).
  destruct (movePad_shell API_KEY d padRef e (Page.shell w) App.GazePad)
    as (P1 & O1 & E1 & L1 & R1).
  destruct (movePad_shell API_KEY d padRef e w1 App.HeadPad)
    as (P2 & O2 & E2 & L2 & R2).
  destruct (movePad_shell API_KEY d padRef e w2 App.BodyPad)
    as (P3 & O3 & E3 & L3 & R3).
  fold w1 in P1, O1, E1, L1, R1, P2, O2, E2, L2, R2.
  fold w2 in P2, O2, E2, L2, R2, P3, O3, E3, L3, R3.
  fold w3 in P3, O3, E3, L3, R3.
  split; [| repeat split; congruence].
  unfold w3, w2, w1.
  destruct pad.
  - rewrite !movePad_other by discriminate. now rewrite movePad_idle.
  - rewrite movePad_other by discriminate.
    rewrite (movePad_idle _ _ _ _ _ App.HeadPad Hd).
    now rewrite movePad_other by discriminate.
  - rewrite (movePad_idle _ _ _ _ _ App.BodyPad Hd).
    now rewrite !movePad_other by discriminate.
Qed.

(** X19 on a page where the head pad alone is dragged: the body offset
    stays. *)
Lemma move_only_dragged_example :
  let padRef := fun pad =>
    Some (Pad.mkRect 100 200 (Page.padSize pad) (Page.padSize pad)) in
  let w := Page.run (Some "key") Page.start
             [Page.FileLoaded (Some "data:image/png;base64,AAAA");
              Page.Press App.HeadPad] in
  let w' := Page.step (Some "key") w
              (Page.WindowMove padRef (Pad.MouseEvent 300 264)) in
  App.bodyOffset (App.app (Page.shell w')) = App.bodyOffset (App.app (Page.shell w)).
Proof.
  cbv zeta.
  apply (move_only_dragged (Some "key")
           (Page.run (Some "key") Page.start
              [Page.FileLoaded (Some "data:image/png;base64,AAAA");
               Page.Press App.HeadPad])
           (fun pad => Some (Pad.mkRect 100 200 (Page.padSize pad)
                                        (Page.padSize pad)))
           (Pad.MouseEvent 300 264) App.BodyPad).
  reflexivity.
Defined.

Lemma movePad_refines
    (API_KEY : option string) (d : Page.Dragging)
    (padRef : App.PadId -> option Pad.DOMRect) (e : Pad.MoveEvent)
    (w : App.World) (pad : App.PadId) :
  exists l, Page.movePad API_KEY d padRef e w pad = App.run API_KEY w l.
Proof.
  unfold Page.movePad. destruct (Page.isDragging d pad); [| now exists []].
  destruct (Pad.handleInteractionMove true (padRef pad) e) as [p |];
    [| now exists []].
  now exists [App.PadOffset pad p].
Qed.

Lemma step_refines (API_KEY : option string) (w : Page.World) (ev : Page.Event) :
  exists l, Page.shell (Page.step API_KEY w ev) = App.run API_KEY (Page.shell w) l.
Proof.
  destruct ev as [pad | padRef e | | | | result | r]; cbn [Page.step Page.shell].
  - exists []. destruct (App.footerRendered _); reflexivity.
  - cbn [fold_left].
    destruct (movePad_refines API_KEY (Page.dragging w) padRef e (Page.shell w)
                App.GazePad) as [l1 ->].
    destruct (movePad_refines API_KEY (Page.dragging w) padRef e
                (App.run API_KEY (Page.shell w) l1) App.HeadPad) as [l2 ->].
    destruct (movePad_refines API_KEY (Page.dragging w) padRef e
                (App.run API_KEY (App.run API_KEY (Page.shell w) l1) l2)
                App.BodyPad) as [l3 ->].
    exists (l1 ++ l2 ++ l3)%list. now rewrite !run_app.
  - now exists [].
  - now exists [App.ClickGenerate].
  - now exists [App.ClickReset].
  - now exists [App.FileLoaded result].
  - now exists [App.ServiceSettled r].
Qed.

Lemma run_refines (API_KEY : option string) (events : list Page.Event) :
  forall w, exists l,
    Page.shell (Page.run API_KEY w events) = App.run API_KEY (Page.shell w) l.
Proof.
  induction events as [| ev events IH]; intros w; [now exists [] |].
  cbn [Page.run fold_left].
  destruct (IH (Page.step API_KEY w ev)) as [l2 E2].
  destruct (step_refines API_KEY w ev) as [l1 E1].
  exists (l1 ++ l2)%list. unfold Page.run in E2. rewrite E2, E1.
  now rewrite run_app.
Qed.

(** X20.  The page with its three pads behaves as the application does:
    the application part of every world that the page reaches is reached by
    the application on some sequence of its own events.  So the page too
    has at most one service call pending, and one exactly when the loading
    flag is set. *)
Theorem page_refines (API_KEY : option string) (events : list Page.Event) :
  let w := Page.shell (Page.run API_KEY Page.start events) in
  (exists l, w = App.run API_KEY App.start l)
  /\ (List.length (App.pending w) <= 1)%nat
  /\ (App.pending w <> [] <-> App.isLoading (App.app w) = true).
Proof.
  cbv zeta. destruct (run_refines API_KEY events Page.start) as [l E].
  split; [now exists l |]. rewrite E. cbn [Page.shell Page.start].
  assert (Hc : App.consistent (App.run API_KEY App.start l)).
  { apply run_consistent. right. split; reflexivity. }
  destruct Hc as [[Ht [c ->]] | [Hf ->]]; split; try (cbn; lia);
    split; intros H; congruence.
Qed.

Lemma step_start (API_KEY : option string) (ev : Page.Event) :
  (forall result, ev <> Page.FileLoaded result) ->
  Page.step API_KEY Page.start ev = Page.start.
Proof.
  intros H. destruct ev as [pad | padRef e | | | | result | r];
    try reflexivity.
  now destruct (H result).
Qed.

(** X21.  Before a file is loaded nothing happens: presses, moves,
    releases, clicks on the two buttons and settling events leave the page
    as it is on mount; in particular no service call is made. *)
Theorem nothing_before_upload (API_KEY : option string) (events : list Page.Event) :
  (forall ev result, In ev events -> ev <> Page.FileLoaded result) ->
  Page.run API_KEY Page.start events = Page.start.
Proof.
  induction events as [| ev events IH]; intros H; [reflexivity |].
  cbn [Page.run fold_left]. rewrite step_start.
  - apply IH. intros ev' result Hin. apply H. now right.
  - intros result. apply H. now left.
Qed.

(** X21 for a press, a move, a click on generate and a release. *)
Lemma nothing_before_upload_example :
  Page.run (Some "key") Page.start
    [Page.Press App.GazePad;
     Page.WindowMove (fun _ => Some (Pad.mkRect 0 0 128 128)) (Pad.MouseEvent 10 10);
     Page.ClickGenerate; Page.WindowRelease]
  = Page.start.
Proof.
  apply (nothing_before_upload (Some "key")).
  intros ev result [<- | [<- | [<- | [<- | []]]]]; discriminate.
Defined.

Lemma movePad_writes
    (API_KEY : option string) (d : Page.Dragging)
    (padRef : App.PadId -> option Pad.DOMRect) (e : Pad.MoveEvent)
    (w : App.World) (pad : App.PadId) (p : Point) :
  Page.isDragging d pad = true ->
  Pad.handleInteractionMove true (padRef pad) e = Some p ->
  App.footerRendered (App.app w) = true ->
  Page.offset pad (App.app (Page.movePad API_KEY d padRef e w pad)) = p.
Proof.
  intros Hd Hp Hf. unfold Page.movePad. rewrite Hd, Hp. cbn [App.step].
  rewrite Hf. destruct pad; reflexivity.
Qed.

Lemma movePad_footer
    (API_KEY : option string) (d : Page.Dragging)
    (padRef : App.PadId -> option Pad.DOMRect) (e : Pad.MoveEvent)
    (w : App.World) (pad : App.PadId) :
  App.footerRendered (App.app (Page.movePad API_KEY d padRef e w pad))
  = App.footerRendered (App.app w).
Proof.
  unfold App.footerRendered.
  destruct (movePad_shell API_KEY d padRef e w pad) as (_ & -> & _).
  reflexivity.
Qed.

(** X22.  On a page with an image, a press on a pad followed by a move in
    the window moves the handle of that pad to the offset that the move
    handler computes for the pointer. *)
Theorem drag_writes
    (API_KEY : option string) (w : Page.World) (pad : App.PadId)
    (padRef : App.PadId -> option Pad.DOMRect) (e : Pad.MoveEvent) (p : Point) :
  App.footerRendered (App.app (Page.shell w)) = true ->
  Pad.handleInteractionMove true (padRef pad) e = Some p ->
  let w' := Page.step API_KEY (Page.step API_KEY w (Page.Press pad))
              (Page.WindowMove padRef e) in
  Page.offset pad (App.app (Page.shell w')) = p
  /\ Page.isDragging (Page.dragging w') pad = true.
Proof.
  intros Hf Hp. cbv zeta. cbn [Page.step]. rewrite Hf.
  cbn [Page.step Page.shell Page.dragging fold_left].
  set (d := Page.setIsDragging pad true (Page.dragging w)).
  assert (Hd : Page.isDragging d pad = true) by (unfold d; destruct pad; reflexivity).
  split; [| exact Hd].
  destruct pad.
  - rewrite !movePad_other by discriminate. now apply movePad_writes.
  - rewrite movePad_other by discriminate.
    apply movePad_writes; try assumption. now rewrite movePad_footer.
  - apply movePad_writes; try assumption. now rewrite !movePad_footer.
Qed.

(** X22 on the head pad at (100,200), with the mouse at (300,264). *)
Lemma drag_writes_example :
  let rect := Pad.mkRect 100 200 128 128 in
  let v := Pad.raw rect (Pad.MouseEvent 300 264) in
  let w := Page.run (Some "key") Page.start
             [Page.FileLoaded (Some "data:image/png;base64,AAAA")] in
  let w' := Page.step (Some "key") (Page.step (Some "key") w (Page.Press App.HeadPad))
              (Page.WindowMove (fun _ => Some rect) (Pad.MouseEvent 300 264)) in
  App.headOffset (App.app (Page.shell w'))
  = mkPoint (x v / Pad.magnitude v * 64) (y v / Pad.magnitude v * 64).
Proof.
  cbv zeta.
  apply (drag_writes (Some "key")
           (Page.run (Some "key") Page.start
              [Page.FileLoaded (Some "data:image/png;base64,AAAA")])
           App.HeadPad (fun _ => Some (Pad.mkRect 100 200 128 128))
           (Pad.MouseEvent 300 264)).
  - reflexivity.
  - exact written_example.
Defined.

(** * The numeric statements and rounding *)








